(** * twitter-to-telegram: the poll loop, the media normalizer, the delivery
      gateway and the command handlers of [main.py], embedded in Rocq.

    Python strings are modelled by their UTF-8 byte sequence ([string]);
    concatenation and equality of strings are the same on code points and on
    their UTF-8 encoding.  Objects whose attributes the code probes
    dynamically ([hasattr], [getattr]) carry optional attributes holding a
    small universe of Python values. *)

From Stdlib Require Import ZArith String Ascii List Bool Lia.
From stdpp Require Import base option list strings pretty gmap.

Local Open Scope string_scope.
Local Open Scope list_scope.
Local Open Scope Z_scope.

(** ** Python values and exceptions *)

Inductive pyval :=
| PyNone
| PyStr (s : string)
| PyInt (z : Z).

Inductive exn :=
| AttributeError (obj attr : string)   (* [obj] has no attribute [attr], or it cannot be set *)
| ValueError                           (* [int("abc")], [l.remove(x)] with [x] missing *)
| OverflowError                        (* an integer too large for a float *)
| TelegramError                        (* raised by a [bot.send_*] call *)
| ScrapeError.                         (* raised inside the scraper *)

Inductive result (A : Type) :=
| Ok (a : A)
| Raise (e : exn).
Arguments Ok {A} a.
Arguments Raise {A} e.

(** [bool(v)] *)
Definition truthy (v : pyval) : bool :=
  match v with
  | PyNone => false
  | PyStr s => negb (String.eqb s "")
  | PyInt z => negb (z =? 0)
  end.

(** [str(v)] *)
Definition py_str (v : pyval) : string :=
  match v with
  | PyNone => "None"
  | PyStr s => s
  | PyInt z => pretty z
  end.

(** [type(v).__name__], used in the messages of attribute errors. *)
Definition py_type_name (v : pyval) : string :=
  match v with
  | PyNone => "NoneType"
  | PyStr _ => "str"
  | PyInt _ => "int"
  end.

(** ** String methods *)

Module PyString.

(** The line feed, written [\n] in the source. *)
Definition nl : string := String "010"%char EmptyString.

Definition bytes (s : string) : list N := map N_of_ascii (list_ascii_of_string s).
Definition of_bytes (l : list N) : string := string_of_list_ascii (map ascii_of_N l).

(** [s.startswith(p)] *)
Fixpoint startswith (s p : string) {struct p} : bool :=
  match p with
  | EmptyString => true
  | String c p' =>
    match s with
    | EmptyString => false
    | String d s' => Ascii.eqb c d && startswith s' p'
    end
  end.

(** [s.endswith(p)] *)
Fixpoint endswith (s p : string) : bool :=
  String.eqb s p ||
  match s with
  | EmptyString => false
  | String _ r => endswith r p
  end.

Definition lower_ascii (c : ascii) : ascii :=
  let n := N_of_ascii c in
  if ((65 <=? n) && (n <=? 90))%N then ascii_of_N (n + 32) else c.

(** [s.lower()].  Only the letters A-Z are mapped: the callers look in the
    result for the ASCII words [video], [.mp4], [.mov] and [.webm].  Outside
    ASCII two characters lowercase to something holding an ASCII letter:
    U+212A, to [k], which is in none of these words, and U+0130, to [i]
    followed by U+0307, which no occurrence of [video] can go through. *)
Fixpoint lower (s : string) : string :=
  match s with
  | EmptyString => EmptyString
  | String c r => String (lower_ascii c) (lower r)
  end.

(** [s.find(p) != -1] *)
Fixpoint contains (s p : string) : bool :=
  startswith s p ||
  match s with
  | EmptyString => false
  | String _ r => contains r p
  end.

(** The characters removed by [str.strip()] are those of [str.isspace]:
    U+0009-000D, U+001C-0020, U+0085, U+00A0, U+1680, U+2000-200A, U+2028,
    U+2029, U+202F, U+205F and U+3000, here in UTF-8. *)
Definition space1 (a : N) : bool :=
  ((9 <=? a) && (a <=? 13) || (28 <=? a) && (a <=? 32))%N.
Definition space2 (a b : N) : bool :=
  ((a =? 194) && ((b =? 133) || (b =? 160)))%N.
Definition space3 (a b c : N) : bool :=
  ((a =? 225) && (b =? 154) && (c =? 128)
   || (a =? 226) && (b =? 128)
      && ((128 <=? c) && (c <=? 138) || (c =? 168) || (c =? 169) || (c =? 175))
   || (a =? 226) && (b =? 129) && (c =? 159)
   || (a =? 227) && (b =? 128) && (c =? 128))%N.

Section Lead.
Variable p2 : N -> N -> bool.
Variable p3 : N -> N -> N -> bool.

Fixpoint drop_lead (l : list N) : list N :=
  match l with
  | [] => []
  | a :: r1 =>
    if space1 a then drop_lead r1
    else match r1 with
         | [] => l
         | b :: r2 =>
           if p2 a b then drop_lead r2
           else match r2 with
                | [] => l
                | c :: r3 => if p3 a b c then drop_lead r3 else l
                end
         end
  end.
End Lead.

Definition lstrip_bytes : list N -> list N := drop_lead space2 space3.
Definition rstrip_bytes (l : list N) : list N :=
  rev (drop_lead (fun b a => space2 a b) (fun c b a => space3 a b c) (rev l)).

(** [s.strip()] *)
Definition strip (s : string) : string :=
  of_bytes (rstrip_bytes (lstrip_bytes (bytes s))).

(** [s.lstrip('@')] *)
Fixpoint lstrip_at (s : string) : string :=
  match s with
  | String "@" r => lstrip_at r
  | _ => s
  end.

End PyString.

(** ** The scraped objects

    A tweet and its media elements are foreign objects: the code reads them
    with [hasattr] and [getattr] only.  An attribute is [None] when the object
    has no such attribute and [Some v] when it has one holding [v]. *)

Record medium := {
  m_class   : string;          (* [m.__class__.__name__] *)
  m_fullUrl    : option pyval;
  m_previewUrl : option pyval;
  m_url        : option pyval;
  m_type       : option pyval
}.

Record tweet := {
  t_id      : option pyval;
  t_content : option pyval;
  t_media   : option (list medium)   (* [None]: no attribute, or holding [None] *)
}.

(** [getattr(o, name, default)] *)
Definition getattr (a : option pyval) (default : pyval) : pyval :=
  match a with
  | Some v => v
  | None => default
  end.

(** [hasattr(o, name) and o.name] used as a condition *)
Definition has_truthy (a : option pyval) : bool :=
  match a with
  | Some v => truthy v
  | None => false
  end.

(** One element of the list returned by the normalizer:
    [{"type": ..., "url": ...}]. *)
Record media_item := {
  mi_type : string;
  mi_url  : string
}.

Definition video_exts : list string := [".mp4"; ".mov"; ".webm"].

(** ** Media normalizer: [extract_media_from_tweet] *)

(** Lines 111-118: the [if]/[elif] chain choosing the URL. *)
Definition pick_url (m : medium) : pyval :=
  if has_truthy (m_fullUrl m) then getattr (m_fullUrl m) PyNone
  else if has_truthy (m_previewUrl m) then getattr (m_previewUrl m) PyNone
  else if has_truthy (m_url m) then getattr (m_url m) PyNone
  else PyNone.

(** Line 120: the condition on the class name and on the [type] attribute. *)
Definition pyval_eq_str (v : pyval) (s : string) : bool :=
  match v with
  | PyStr s' => String.eqb s' s
  | _ => false
  end.

Definition tagged_video (m : medium) : bool :=
  PyString.contains (PyString.lower (m_class m)) "video"
  || pyval_eq_str (getattr (m_type m) (PyStr "")) "video".

(** Line 124: [any(url.lower().endswith(ext) for ext in [...])] *)
Definition has_video_ext (u : string) : bool :=
  existsb (PyString.endswith (PyString.lower u)) video_exts.

(** The body of the [for m in tweet.media] loop: [None] when nothing is
    appended for [m].  [url.lower()] exists for strings only. *)
Definition extract_one (m : medium) : result (option media_item) :=
  let url := pick_url m in
  let mtype := if tagged_video m then "video" else "photo" in
  if truthy url then
    match url with
    | PyStr u =>
      let mtype := if has_video_ext u then "video" else mtype in
      Ok (Some {| mi_type := mtype; mi_url := u |})
    | _ => Raise (AttributeError (py_type_name url) "lower")
    end
  else Ok None.

Fixpoint extract_loop (ms : list medium) (media_list : list media_item)
  : result (list media_item) :=
  match ms with
  | [] => Ok media_list
  | m :: rest =>
    match extract_one m with
    | Raise e => Raise e
    | Ok None => extract_loop rest media_list
    | Ok (Some it) => extract_loop rest (media_list ++ [it])
    end
  end.

Definition extract_media_from_tweet (t : tweet) : result (list media_item) :=
  match t_media t with
  | None => Ok []
  | Some [] => Ok []
  | Some ms => extract_loop ms []
  end.

(** ** The normalizer in the words of its contract

    What the normalizer is to compute on posts whose URL attributes are
    absent, [None] or strings: the URL of an element is the first non-empty
    one of [fullUrl], [previewUrl], [url]; its kind is [video] when tagged so
    or when the URL has a video extension, [photo] otherwise. *)

Definition str_or_none (a : option pyval) : bool :=
  match a with
  | Some (PyInt _) => false
  | _ => true
  end.

Definition medium_typed (m : medium) : bool :=
  str_or_none (m_fullUrl m) && str_or_none (m_previewUrl m) && str_or_none (m_url m).

Definition media_of (t : tweet) : list medium := default [] (t_media t).

Definition tweet_typed (t : tweet) : bool := forallb medium_typed (media_of t).

Definition nonempty (a : option pyval) : option string :=
  match a with
  | Some (PyStr s) => if String.eqb s "" then None else Some s
  | _ => None
  end.

Definition resolved_url (m : medium) : option string :=
  match nonempty (m_fullUrl m) with
  | Some u => Some u
  | None =>
    match nonempty (m_previewUrl m) with
    | Some u => Some u
    | None => nonempty (m_url m)
    end
  end.

Definition video_by_extension (u : string) : Prop :=
  exists pre,
    PyString.lower u = pre +:+ ".mp4"
    \/ PyString.lower u = pre +:+ ".mov"
    \/ PyString.lower u = pre +:+ ".webm".

(** The explicit type signals of an element: a class name in which [video]
    occurs, in whatever case, or a [type] attribute equal to [video]. *)
Definition explicit_video (m : medium) : Prop :=
  (exists pre post, PyString.lower (m_class m) = pre +:+ "video" +:+ post)
  \/ m_type m = Some (PyStr "video").

Definition kind_of (m : medium) (u : string) : string :=
  if tagged_video m then "video"
  else if has_video_ext u then "video"
  else "photo".

Definition normalized (m : medium) : option media_item :=
  match resolved_url m with
  | Some u => Some {| mi_type := kind_of m u; mi_url := u |}
  | None => None
  end.

(** The kind the contract gives to an item coming from element [m]: a video
    when an explicit signal says so; otherwise a video exactly when the URL
    has a video extension, and a photo in every other case. *)
Definition classified (m : medium) (it : media_item) : Prop :=
  (explicit_video m -> mi_type it = "video")
  /\ (~ explicit_video m ->
      (video_by_extension (mi_url it) /\ mi_type it = "video")
      \/ (~ video_by_extension (mi_url it) /\ mi_type it = "photo")).

(** ** Process state, outside world and effects *)

Record config_t := {
  twitter_accounts : list string;
  interval_minutes : Z;
  telegram_channel : option string;
  paused : bool
}.

Inductive json_file := CONFIG_FILE | CACHE_FILE.

(** One [InputMediaPhoto] of a media group, as [bot.send_media_group] would
    receive it. *)
Record input_media_photo := {
  imp_media   : string;
  imp_caption : option string
}.

(** What the process does to the outside world, in order. *)
Inductive event :=
| EScrape (uname : string)                                  (* TwitterUserScraper(uname).get_items() *)
| ESendMessage (chat_id : option string) (text : string)    (* bot.send_message *)
| ESendPhoto (chat_id : option string) (photo caption : string)   (* bot.send_photo *)
| ESendMediaGroup (chat_id : option string) (media : list input_media_photo)  (* bot.send_media_group *)
| ESendVideo (chat_id : option string) (video : string)     (* bot.send_video *)
| EWrite (f : json_file)                                    (* save_json *)
| ESleep (seconds : Z)                                      (* asyncio.sleep *)
| ELogInfo (msg : string)
| ELogWarning (msg : string)
| ELogException (msg : string) (e : exn).

(** The globals [config] and [cache], the two JSON files and the trace of
    effects so far. *)
Record state := {
  config : config_t;
  cache : gmap string string;
  config_json : option config_t;
  cache_json : option (gmap string string);
  trace : list event
}.

(** Outcome of one run of the scraper. *)
Inductive scrape_outcome :=
| ScrapeRaises               (* the scraper raises *)
| ScrapeEmpty                (* [get_items()] yields nothing *)
| ScrapeFirst (t : tweet).   (* the first item yielded *)

(** The outside world, asked at the moment of a call; the moment is the
    number of effects performed before it. *)
Record world := {
  scrape : nat -> string -> scrape_outcome;
  bot_raises : nat -> bool
}.

Definition M (A : Type) : Type := state -> result A * state.

Definition ret {A} (a : A) : M A := fun s => (Ok a, s).

Definition bind {A B} (m : M A) (k : A -> M B) : M B :=
  fun s =>
    match m s with
    | (Ok a, s') => k a s'
    | (Raise e, s') => (Raise e, s')
    end.

Definition raise {A} (e : exn) : M A := fun s => (Raise e, s).

(** [try: body except Exception as e: handler(e)] *)
Definition try_except {A} (body : M A) (handler : exn -> M A) : M A :=
  fun s =>
    match body s with
    | (Ok a, s') => (Ok a, s')
    | (Raise e, s') => handler e s'
    end.

(** [try: body except ValueError: handler] *)
Definition try_except_ValueError {A} (body : M A) (handler : M A) : M A :=
  fun s =>
    match body s with
    | (Raise ValueError, s') => handler s'
    | r => r
    end.

Definition lift {A} (r : result A) : M A := fun s => (r, s).

Declare Scope py_scope.
Delimit Scope py_scope with py.
Notation "x <- m ;; k" := (bind m (fun x => k))
  (at level 100, m at next level, right associativity) : py_scope.
Notation "m ;;; k" := (bind m (fun _ => k))
  (at level 100, right associativity) : py_scope.
Local Open Scope py_scope.

Definition emit (ev : event) : M unit :=
  fun s => (Ok tt, {| config := config s; cache := cache s;
                      config_json := config_json s; cache_json := cache_json s;
                      trace := trace s ++ [ev] |}).

Definition get_config : M config_t := fun s => (Ok (config s), s).
Definition get_cache : M (gmap string string) := fun s => (Ok (cache s), s).

Definition set_config (c : config_t) : M unit :=
  fun s => (Ok tt, {| config := c; cache := cache s;
                      config_json := config_json s; cache_json := cache_json s;
                      trace := trace s |}).

Definition set_cache (c : gmap string string) : M unit :=
  fun s => (Ok tt, {| config := config s; cache := c;
                      config_json := config_json s; cache_json := cache_json s;
                      trace := trace s |}).

(** [save_json(CONFIG_FILE, config)] and [save_json(CACHE_FILE, cache)]: the
    whole document is rewritten. *)
Definition save_json (f : json_file) : M unit :=
  fun s =>
    (Ok tt,
     match f with
     | CONFIG_FILE =>
       {| config := config s; cache := cache s;
          config_json := Some (config s); cache_json := cache_json s;
          trace := trace s ++ [EWrite CONFIG_FILE] |}
     | CACHE_FILE =>
       {| config := config s; cache := cache s;
          config_json := config_json s; cache_json := Some (cache s);
          trace := trace s ++ [EWrite CACHE_FILE] |}
     end).

(** [asyncio.sleep(delay)] with an integer [delay] above 0 schedules the
    wake-up at the loop's clock, a float, plus [delay]: the sum converts
    [delay] to a float and raises [OverflowError] when the integer, rounded
    to the nearest float, exceeds the largest one, that is from
    [2^1024 - 2^970] on.  Otherwise the task sleeps. *)
Definition sleep_overflows (seconds : Z) : bool :=
  2 ^ 1024 - 2 ^ 970 <=? seconds.
Arguments sleep_overflows : simpl never.

Definition asyncio_sleep (seconds : Z) : M unit :=
  if sleep_overflows seconds then raise OverflowError else emit (ESleep seconds).

(** [for x in l: body(x)] *)
Fixpoint for_each {A} (l : list A) (body : A -> M unit) : M unit :=
  match l with
  | [] => ret tt
  | x :: rest => body x ;;; for_each rest body
  end.

Section Program.

Variable w : world.

(** A call of a [bot] method: the call is made, and raises when the world
    says so. *)
Definition bot_call (ev : event) : M unit :=
  fun s =>
    match emit ev s with
    | (_, s') =>
      if bot_raises w (length (trace s)) then (Raise TelegramError, s') else (Ok tt, s')
    end.

(** ** Delivery gateway: [send_text], [send_media],
       [send_to_channel_text_only] *)

Definition send_text (channel : option string) (text : string) : M unit :=
  try_except
    (bot_call (ESendMessage channel text))
    (fun e => emit (ELogException "Failed to send text" e)).

Definition urls_of_type (ty : string) (media_urls : list media_item) : list string :=
  map mi_url (filter (fun m => mi_type m = ty) media_urls).

(** With several photos (lines 70-73) the list of [InputMediaPhoto] is built
    and line 72 assigns to the [caption] of its first element.  The objects
    of the telegram library are immutable from version 20 on, the version
    whose [ApplicationBuilder] line 8 imports: the assignment raises
    [AttributeError] and [bot.send_media_group] of line 73 is not reached. *)
Definition send_media (channel : option string) (media_urls : list media_item)
           (caption : string) : M unit :=
  try_except
    (match media_urls with
     | [] => if negb (String.eqb caption "") then send_text channel caption else ret tt
     | _ =>
       let photos := urls_of_type "photo" media_urls in
       let videos := urls_of_type "video" media_urls in
       (match photos with
        | [] => ret tt
        | [p] => bot_call (ESendPhoto channel p caption)
        | _ => raise (AttributeError "InputMediaPhoto" "caption")
        end) ;;;
       for_each videos (fun v => bot_call (ESendVideo channel v)) ;;;
       match photos, videos with
       | [], [] => if negb (String.eqb caption "") then send_text channel caption else ret tt
       | _, _ => ret tt
       end
     end)
    (fun e => emit (ELogException "Failed to send media" e)).

Definition send_to_channel_text_only (text : string) : M unit :=
  cfg <- get_config ;;
  match telegram_channel cfg with
  | None => emit (ELogWarning "Channel not set. Skipping message.")
  | Some "" => emit (ELogWarning "Channel not set. Skipping message.")
  | Some ch => send_text (Some ch) text
  end.

(** ** Scraper: [get_latest_tweet_sync] *)

Definition get_latest_tweet_sync (username : string) : M (option tweet) :=
  let uname := PyString.lstrip_at username in
  fun s =>
    match emit (EScrape uname) s with
    | (_, s') =>
      match scrape w (length (trace s)) uname with
      | ScrapeFirst t => (Ok (Some t), s')
      | ScrapeEmpty => (Ok None, s')
      | ScrapeRaises =>
        (emit (ELogException ("Scrape error for " +:+ username) ScrapeError) ;;;
         ret None) s'
      end
    end.

(** ** Change detector: [check_for_new_tweets] *)

(** [list(dict.fromkeys(l))]: duplicates removed, first occurrence kept. *)
Fixpoint fromkeys (l : list string) : list string :=
  match l with
  | [] => []
  | x :: rest => x :: filter (fun y => y ≠ x) (fromkeys rest)
  end.

(** [getattr(tweet, "content", "").strip()] *)
Definition content_stripped (t : tweet) : result string :=
  match getattr (t_content t) (PyStr "") with
  | PyStr s => Ok (PyString.strip s)
  | v => Raise (AttributeError (py_type_name v) "strip")
  end.

Definition header (acc : string) : string := "🧵 New tweet from " +:+ acc.

(** Line 148 *)
Definition make_caption (acc text : string) : string :=
  if negb (String.eqb text "") then header acc +:+ ":" +:+ PyString.nl +:+ PyString.nl +:+ text
  else header acc.

(** Lines 145-156: the branch taken when [last != tid]. *)
Definition deliver_new (acc : string) (t : tweet) (tid : string) : M unit :=
  text <- lift (content_stripped t) ;;
  let caption := make_caption acc text in
  media <- lift (extract_media_from_tweet t) ;;
  cfg <- get_config ;;
  let channel := telegram_channel cfg in
  (match media with
   | [] => send_text channel caption
   | _ => send_media channel media caption
   end) ;;;
  c <- get_cache ;;
  set_cache (<[acc := tid]> c) ;;;
  save_json CACHE_FILE.

(** Lines 139-156: the body of [for acc in accounts]. *)
Definition process_account (acc : string) : M unit :=
  tw <- get_latest_tweet_sync acc ;;
  match tw with
  | None => ret tt
  | Some t =>
    let tid := py_str (getattr (t_id t) PyNone) in
    c <- get_cache ;;
    let last := c !! acc in
    if decide (last ≠ Some tid) then deliver_new acc t tid else ret tt
  end.

(** Lines 133-156: what the [try] of one iteration of [while True]
    protects. *)
Definition cycle_body : M unit :=
  cfg <- get_config ;;
  if paused cfg then emit (ELogInfo "Crawler paused")
  else
    let accounts := fromkeys (twitter_accounts cfg) in
    emit (ELogInfo ("Checking " +:+ pretty (length accounts) +:+ " accounts")) ;;;
    for_each accounts process_account.

(** Lines 132-159: one iteration of [while True].  The sleep of line 159 is
    outside the [try]. *)
Definition poll_cycle : M unit :=
  try_except cycle_body
    (fun e => emit (ELogException "Error in check loop" e)) ;;;
  cfg <- get_config ;;
  asyncio_sleep (Z.max 30 (interval_minutes cfg * 60)).

(** The first [n] iterations of [while True]; an exception that leaves an
    iteration ends the task. *)
Fixpoint check_for_new_tweets (n : nat) : M unit :=
  match n with
  | O => ret tt
  | S k => poll_cycle ;;; check_for_new_tweets k
  end.

End Program.

(** ** Command controller: the [cmd_*] handlers

    A handler receives [context.args] and returns the text it passes to
    [update.message.reply_text]. *)

(** [int] is a builtin: the handlers take it as the parameter [py_int], a
    function from the argument to the integer read or the exception raised,
    and what is proved of them holds for every such function.

    [int_ascii] is one such function, used to run the handlers on examples:
    it reads the decimal literals written with ASCII digits - surrounding
    white space, an optional sign, digits with single underscores between
    them.  Nothing is proved from its definition about other arguments. *)
Definition digit_of (c : ascii) : option Z :=
  let n := N_of_ascii c in
  if ((48 <=? n) && (n <=? 57))%N then Some (Z.of_N n - 48) else None.

Fixpoint int_digits (s : string) (acc : Z) (after_digit : bool) : option Z :=
  match s with
  | EmptyString => if after_digit then Some acc else None
  | String c r =>
    match digit_of c with
    | Some d => int_digits r (10 * acc + d) true
    | None =>
      if Ascii.eqb c "_" && after_digit then int_digits r acc false else None
    end
  end.

Definition int_ascii (s : string) : result Z :=
  let t := PyString.strip s in
  let parsed :=
    match t with
    | String "-" r => Z.opp <$> int_digits r 0 false
    | String "+" r => int_digits r 0 false
    | _ => int_digits t 0 false
    end in
  match parsed with
  | Some n => Ok n
  | None => Raise ValueError
  end.

(** Lines 185-186 and 199-200: the leading [@] is added when missing. *)
Definition with_at (acc : string) : string :=
  if negb (PyString.startswith acc "@") then "@" +:+ acc else acc.

Definition set_twitter_accounts (l : list string) (c : config_t) : config_t :=
  {| twitter_accounts := l; interval_minutes := interval_minutes c;
     telegram_channel := telegram_channel c; paused := paused c |}.

Definition set_interval_minutes (n : Z) (c : config_t) : config_t :=
  {| twitter_accounts := twitter_accounts c; interval_minutes := n;
     telegram_channel := telegram_channel c; paused := paused c |}.

Definition set_telegram_channel (ch : option string) (c : config_t) : config_t :=
  {| twitter_accounts := twitter_accounts c; interval_minutes := interval_minutes c;
     telegram_channel := ch; paused := paused c |}.

Definition set_paused (b : bool) (c : config_t) : config_t :=
  {| twitter_accounts := twitter_accounts c; interval_minutes := interval_minutes c;
     telegram_channel := telegram_channel c; paused := b |}.

Definition cmd_add (args : list string) : M string :=
  match args with
  | [] => ret "Usage: /add @username"
  | a :: _ =>
    let acc := with_at a in
    cfg <- get_config ;;
    if decide (acc ∈ twitter_accounts cfg) then ret (acc +:+ " already tracked")
    else
      set_config (set_twitter_accounts (twitter_accounts cfg ++ [acc]) cfg) ;;;
      save_json CONFIG_FILE ;;;
      ret ("✅ Added " +:+ acc)
  end.

(** [l.remove(x)]: the first occurrence goes, [ValueError] when there is
    none. *)
Fixpoint list_remove (x : string) (l : list string) : result (list string) :=
  match l with
  | [] => Raise ValueError
  | y :: rest =>
    if decide (y = x) then Ok rest
    else match list_remove x rest with
         | Ok rest' => Ok (y :: rest')
         | Raise e => Raise e
         end
  end.

Definition cmd_remove (args : list string) : M string :=
  match args with
  | [] => ret "Usage: /remove @username"
  | a :: _ =>
    let acc := with_at a in
    try_except_ValueError
      (cfg <- get_config ;;
       l <- lift (list_remove acc (twitter_accounts cfg)) ;;
       set_config (set_twitter_accounts l cfg) ;;;
       save_json CONFIG_FILE ;;;
       ret ("✅ Removed " +:+ acc))
      (ret (acc +:+ " not found"))
  end.

Definition cmd_setchannel (args : list string) : M string :=
  match args with
  | [] => ret "Usage: /setchannel @channel"
  | ch :: _ =>
    cfg <- get_config ;;
    set_config (set_telegram_channel (Some ch) cfg) ;;;
    save_json CONFIG_FILE ;;;
    ret ("✅ Channel set to " +:+ ch)
  end.

Definition cmd_setinterval (py_int : string -> result Z) (args : list string)
  : M string :=
  match args with
  | [] => ret "Usage: /setinterval N (minutes)"
  | a :: _ =>
    try_except_ValueError
      (n <- lift (py_int a) ;;
       cfg <- get_config ;;
       set_config (set_interval_minutes (Z.max 1 n) cfg) ;;;
       save_json CONFIG_FILE ;;;
       ret ("✅ Interval set to " +:+ pretty n +:+ " minutes"))
      (ret "Invalid number")
  end.

Definition cmd_pause : M string :=
  cfg <- get_config ;;
  set_config (set_paused true cfg) ;;;
  save_json CONFIG_FILE ;;;
  ret "⏸️ Crawling paused".

Definition cmd_resume : M string :=
  cfg <- get_config ;;
  set_config (set_paused false cfg) ;;;
  save_json CONFIG_FILE ;;;
  ret "▶️ Crawling resumed".

(** The state of a first run: no file on disk (lines 36-42). *)
Definition initial_state (default_channel : option string) : state :=
  {| config := {| twitter_accounts := []; interval_minutes := 3;
                  telegram_channel := default_channel; paused := false |};
     cache := ∅; config_json := None; cache_json := None; trace := [] |}.

(** ** Sample data *)

Definition photoA : medium :=
  {| m_class := "Photo"; m_fullUrl := Some (PyStr "https://p/a.jpg");
     m_previewUrl := Some (PyStr "https://p/a_small.jpg"); m_url := None; m_type := None |}.
Definition videoB : medium :=
  {| m_class := "Video"; m_fullUrl := None; m_previewUrl := None;
     m_url := Some (PyStr "https://v/b"); m_type := None |}.
Definition photoC : medium :=
  {| m_class := "Photo"; m_fullUrl := Some (PyStr "");
     m_previewUrl := Some (PyStr "https://p/c_small.jpg"); m_url := None; m_type := None |}.
Definition no_url : medium :=
  {| m_class := "Gif"; m_fullUrl := None; m_previewUrl := Some PyNone;
     m_url := Some (PyStr ""); m_type := None |}.

Definition clip_mov : medium :=
  {| m_class := "Medium"; m_fullUrl := Some (PyStr "https://v/Clip.MOV");
     m_previewUrl := None; m_url := None; m_type := None |}.
Definition tagged_clip : medium :=
  {| m_class := "Medium"; m_fullUrl := None; m_previewUrl := None;
     m_url := Some (PyStr "https://v/stream"); m_type := Some (PyStr "video") |}.
(** A post with elements of every sort: a photo, an element without URL, an
    untagged element with a video extension in upper case, an element tagged
    by its [type] and a video by its class. *)
Definition tweet_mixed : tweet :=
  {| t_id := None; t_content := None;
     t_media := Some [photoA; no_url; clip_mov; tagged_clip; videoB] |}.
Definition tweet1 : tweet :=
  {| t_id := Some (PyInt 1001); t_content := Some (PyStr " hello ");
     t_media := Some [photoA; videoB; photoC] |}.
Definition tweet2 : tweet :=
  {| t_id := Some (PyInt 2002); t_content := Some (PyStr "second"); t_media := None |}.
(** A post whose [content] attribute holds [None]. *)
Definition tweet_no_text : tweet :=
  {| t_id := Some (PyInt 3003); t_content := Some PyNone; t_media := None |}.

(** A world in which [alice] has [tweet_no_text], everybody else [tweet2],
    and no [bot] call fails. *)
Definition world1 : world :=
  {| scrape := fun _ u => if String.eqb u "alice" then ScrapeFirst tweet_no_text
                          else ScrapeFirst tweet2;
     bot_raises := fun _ => false |}.

(** A world in which everybody has [tweet1] and every [bot] call fails. *)
Definition world_down : world :=
  {| scrape := fun _ _ => ScrapeFirst tweet1; bot_raises := fun _ => true |}.

(** A world in which everybody has [tweet1] and no [bot] call fails. *)
Definition world_up : world :=
  {| scrape := fun _ _ => ScrapeFirst tweet1; bot_raises := fun _ => false |}.

Definition state_watching (accs : list string) (ch : option string) : state :=
  {| config := {| twitter_accounts := accs; interval_minutes := 3;
                  telegram_channel := ch; paused := false |};
     cache := ∅; config_json := None; cache_json := None; trace := [] |}.

(** ** Observing a run *)

(** The state after performing the effects [evs]. *)
Definition add_trace (s : state) (evs : list event) : state :=
  {| config := config s; cache := cache s;
     config_json := config_json s; cache_json := cache_json s;
     trace := trace s ++ evs |}.

(** The effects performed between state [s] and a later state [s']. *)
Definition new_events (s s' : state) : list event :=
  drop (length (trace s)) (trace s').

(** Of a list of [bot] calls started at moment [clock], the calls made before
    an exception stops the sequence, and whether one raises. *)
Fixpoint attempted (w : world) (clock : nat) (calls : list event) : list event :=
  match calls with
  | [] => []
  | ev :: rest =>
    ev :: (if bot_raises w clock then [] else attempted w (S clock) rest)
  end.

Fixpoint any_raises (w : world) (clock : nat) (calls : list event) : bool :=
  match calls with
  | [] => false
  | _ :: rest => bot_raises w clock || any_raises w (S clock) rest
  end.

(** ** The delivery contract in its own words

    What the contract of the gateway asks for, whether or not the code does
    it.  Photo handling first: one single-photo send carrying the caption for one
    photo, one grouped send with the caption on the first item for several;
    then one send per video, without caption; the caption as plain text
    when there is neither photo nor video and the caption is not empty. *)

Definition photo_sends (ch : option string) (photos : list string) (caption : string)
  : list event :=
  match photos with
  | [] => []
  | [p] => [ESendPhoto ch p caption]
  | p :: rest =>
    [ESendMediaGroup ch
       ({| imp_media := p; imp_caption := Some caption |}
          :: map (fun q => {| imp_media := q; imp_caption := None |}) rest)]
  end.

Definition text_fallback (ch : option string) (photos videos : list string)
           (caption : string) : list event :=
  match photos, videos with
  | [], [] => if String.eqb caption "" then [] else [ESendMessage ch caption]
  | _, _ => []
  end.

Definition delivery_plan (ch : option string) (media_urls : list media_item)
           (caption : string) : list event :=
  let photos := urls_of_type "photo" media_urls in
  let videos := urls_of_type "video" media_urls in
  (photo_sends ch photos caption ++ map (ESendVideo ch) videos
     ++ text_fallback ch photos videos caption)%list.

(** The log entry left by a failed delivery: [send_text] logs its own
    failure, every other call is covered by [send_media]. *)
Definition failure_log (media_urls : list media_item) : list event :=
  match urls_of_type "photo" media_urls, urls_of_type "video" media_urls with
  | [], [] => [ELogException "Failed to send text" TelegramError]
  | _, _ => [ELogException "Failed to send media" TelegramError]
  end.

Definition item_photo1 : media_item := {| mi_type := "photo"; mi_url := "https://p/1.jpg" |}.
Definition item_photo2 : media_item := {| mi_type := "photo"; mi_url := "https://p/2.jpg" |}.
Definition item_video1 : media_item := {| mi_type := "video"; mi_url := "https://v/1.mp4" |}.

(** A world in which the first effect, when it is a [bot] call, raises, and
    no later one does. *)
Definition world_first_call_fails : world :=
  {| scrape := fun _ _ => ScrapeEmpty; bot_raises := fun n => Nat.eqb n 0 |}.

(** ** The account step in closed form *)

(** The effects of the delivery started at moment [clock] (lines 151-154):
    [send_text] for an empty media list, [send_media] otherwise; with several
    photos [send_media] only logs the exception of line 72. *)
Definition delivery_events (w : world) (clock : nat) (ch : option string)
           (media : list media_item) (caption : string) : list event :=
  match media with
  | [] =>
    ESendMessage ch caption
      :: (if bot_raises w clock
          then [ELogException "Failed to send text" TelegramError] else [])
  | _ =>
    match urls_of_type "photo" media with
    | _ :: _ :: _ =>
      [ELogException "Failed to send media" (AttributeError "InputMediaPhoto" "caption")]
    | _ =>
      (attempted w clock (delivery_plan ch media caption)
         ++ if any_raises w clock (delivery_plan ch media caption)
            then failure_log media else [])%list
    end
  end.

(** The state after the effects [evs] followed by lines 155-156: the marker
    of [acc] set to [tid] and the marker map written to its file. *)
Definition marked (acc tid : string) (s : state) (evs : list event) : state :=
  {| config := config s;
     cache := <[acc := tid]> (cache s);
     config_json := config_json s;
     cache_json := Some (<[acc := tid]> (cache s));
     trace := trace s ++ evs ++ [EWrite CACHE_FILE] |}.

Definition is_sleep (ev : event) : bool :=
  match ev with
  | ESleep _ => true
  | _ => false
  end.

(** A computation that never sleeps and leaves the configuration alone. *)
Definition quiet {A} (m : M A) : Prop :=
  forall s, exists evs,
    trace (m s).2 = trace s ++ evs
    /\ Forall (fun ev => is_sleep ev = false) evs
    /\ config (m s).2 = config s.

(** The pause between two cycles (line 159). *)
Definition pause_of (c : config_t) : event :=
  ESleep (Z.max 30 (interval_minutes c * 60)).

(** The length of that pause, and whether [asyncio.sleep] accepts it. *)
Definition pause_seconds (c : config_t) : Z := Z.max 30 (interval_minutes c * 60).
Definition pause_fits (c : config_t) : bool := negb (sleep_overflows (pause_seconds c)).

(** The end of an iteration from state [s], the effects [evs] being those of
    the [except] clause: the pause, or [OverflowError]. *)
Definition then_sleep (s : state) (evs : list event) : result unit * state :=
  if pause_fits (config s)
  then (Ok tt,
        {| config := config s; cache := cache s;
           config_json := config_json s; cache_json := cache_json s;
           trace := trace s ++ evs ++ [pause_of (config s)] |})
  else (Raise OverflowError,
        {| config := config s; cache := cache s;
           config_json := config_json s; cache_json := cache_json s;
           trace := trace s ++ evs |}).

(** Number of pauses in a list of effects. *)
Definition sleeps (evs : list event) : nat := length (List.filter is_sleep evs).

(** The marker the code compares and stores: [str(getattr(tweet, "id", None))]. *)
Definition tweet_id (t : tweet) : string := py_str (getattr (t_id t) PyNone).

(** ** Start of the process: [load_json] and lines 36-42 *)

(** [load_json(path, default)]: the document of the file, [default] when
    there is no file.  A file holds a document written by [save_json]. *)
Definition load_json {A} (file : option A) (default : A) : A :=
  match file with
  | Some doc => doc
  | None => default
  end.

(** [DEFAULT_CHANNEL or None] *)
Definition or_none (v : option string) : option string :=
  match v with
  | Some "" => None
  | _ => v
  end.

(** The default of line 36, [env] being [os.environ.get('DEFAULT_CHANNEL')]. *)
Definition default_config (env : option string) : config_t :=
  {| twitter_accounts := []; interval_minutes := 3;
     telegram_channel := or_none env; paused := false |}.

(** The globals of a process started on the files left in [s]. *)
Definition startup (env : option string) (s : state) : state :=
  {| config := load_json (config_json s) (default_config env);
     cache := load_json (cache_json s) ∅;
     config_json := config_json s;
     cache_json := cache_json s;
     trace := [] |}.

(** ** The remaining handlers and the handler table of [main] *)

Definition cmd_start : M string :=
  ret "Hello! I control the Twitter → Telegram crawler. Use /help for commands.".

Definition help_text : string :=
  "/add @username - Start watching an account" +:+ PyString.nl +:+
  "/remove @username - Stop watching" +:+ PyString.nl +:+
  "/list - Show watched accounts" +:+ PyString.nl +:+
  "/setchannel @channel - Set output channel" +:+ PyString.nl +:+
  "/setinterval N - Set minutes between checks" +:+ PyString.nl +:+
  "/pause - Pause crawling" +:+ PyString.nl +:+
  "/resume - Resume crawling" +:+ PyString.nl +:+
  "/status - Show current status" +:+ PyString.nl.

Definition cmd_help : M string := ret help_text.

(** [sep.join(l)] *)
Fixpoint join (sep : string) (l : list string) : string :=
  match l with
  | [] => ""
  | [x] => x
  | x :: rest => x +:+ sep +:+ join sep rest
  end.

(** [[f"{i+1}. {a}" for i, a in enumerate(arr)]], counting from [i]. *)
Fixpoint numbered (i : nat) (arr : list string) : list string :=
  match arr with
  | [] => []
  | a :: rest => (pretty (S i) +:+ ". " +:+ a) :: numbered (S i) rest
  end.

Definition cmd_list : M string :=
  cfg <- get_config ;;
  match twitter_accounts cfg with
  | [] => ret "No accounts tracked yet."
  | arr => ret ("Tracked accounts:" +:+ PyString.nl +:+ join PyString.nl (numbered 0 arr))
  end.

(** [str(v)] for the channel and the pause flag. *)
Definition str_option (v : option string) : string :=
  match v with
  | Some s => s
  | None => "None"
  end.
Definition str_bool (b : bool) : string := if b then "True" else "False".

Definition cmd_status : M string :=
  cfg <- get_config ;;
  ret ("Accounts: " +:+ pretty (length (twitter_accounts cfg)) +:+ PyString.nl +:+
       "Interval (min): " +:+ pretty (interval_minutes cfg) +:+ PyString.nl +:+
       "Channel: " +:+ str_option (telegram_channel cfg) +:+ PyString.nl +:+
       "Paused: " +:+ str_bool (paused cfg)).

(** A command received by the bot, with [context.args]. *)
Inductive command :=
| Start
| Help
| Add (args : list string)
| Remove (args : list string)
| ListAccounts
| SetChannel (args : list string)
| SetInterval (args : list string)
| Pause
| Resume
| Status.

(** Lines 259-268: the handler registered for each command. *)
Definition handler (py_int : string -> result Z) (c : command) : M string :=
  match c with
  | Start => cmd_start
  | Help => cmd_help
  | Add args => cmd_add args
  | Remove args => cmd_remove args
  | ListAccounts => cmd_list
  | SetChannel args => cmd_setchannel args
  | SetInterval args => cmd_setinterval py_int args
  | Pause => cmd_pause
  | Resume => cmd_resume
  | Status => cmd_status
  end.

(** The state after a sequence of commands, handled one after the other. *)
Fixpoint after_commands (py_int : string -> result Z) (cs : list command)
         (s : state) : state :=
  match cs with
  | [] => s
  | c :: rest => after_commands py_int rest (handler py_int c s).2
  end.

(** ** What the loop and the commands keep *)

(** The effects the poll loop may perform under configuration [c]: [bot]
    calls to the configured channel, scrapes of watched accounts, writes of
    the marker file, pauses of the configured length, log entries. *)
Definition loop_event_ok (c : config_t) (ev : event) : Prop :=
  match ev with
  | ESendMessage ch _ | ESendPhoto ch _ _ | ESendMediaGroup ch _ | ESendVideo ch _ =>
    ch = telegram_channel c
  | EScrape u => exists a, a ∈ twitter_accounts c /\ u = PyString.lstrip_at a
  | EWrite f => f = CACHE_FILE
  | ESleep z => z = Z.max 30 (interval_minutes c * 60)
  | ELogWarning _ => False
  | ELogInfo _ | ELogException _ _ => True
  end.

(** What a run of the poll loop from [s] to [s'] keeps. *)
Record loop_keeps (s s' : state) : Prop := {
  lk_config : config s' = config s;
  lk_config_json : config_json s' = config_json s;
  lk_trace : exists evs, trace s' = trace s ++ evs
                         /\ Forall (loop_event_ok (config s)) evs;
  lk_unwatched : forall k, k ∉ twitter_accounts (config s) ->
                           cache s' !! k = cache s !! k;
  lk_kept : forall k, is_Some (cache s !! k) -> is_Some (cache s' !! k);
  lk_synced : load_json (cache_json s) ∅ = cache s ->
              load_json (cache_json s') ∅ = cache s'
}.

(** The scraper runs among the effects [evs], in order. *)
Definition scrapes (evs : list event) : list string :=
  omap (fun ev => match ev with EScrape u => Some u | _ => None end) evs.

(** A world whose scraper answers the same at every moment. *)
Definition stationary (w : world) : Prop :=
  forall n u, scrape w n u = scrape w 0%nat u.

(** An account whose processing, with markers [c], delivers nothing: nothing
    fetched, the fetched post already marked, or a post that does not
    normalize. *)
Definition settled (w : world) (c : gmap string string) (acc : string) : Prop :=
  match scrape w 0%nat (PyString.lstrip_at acc) with
  | ScrapeFirst t =>
    c !! acc = Some (tweet_id t)
    \/ (exists e, content_stripped t = Raise e)
    \/ (exists e, extract_media_from_tweet t = Raise e)
  | _ => True
  end.

(** The watch-list the commands maintain: no duplicate, every name with its
    leading [@], and an interval of at least one minute. *)
Definition config_wf (c : config_t) : Prop :=
  NoDup (twitter_accounts c)
  /\ Forall (fun a => PyString.startswith a "@" = true) (twitter_accounts c)
  /\ 1 <= interval_minutes c.

(** The configuration file, when there is one, holds the configuration in
    memory. *)
Definition config_saved (env : option string) (s : state) : Prop :=
  load_json (config_json s) (default_config env) = config s.

(** The five ways the processing of one account (lines 139-156) ends. *)
Inductive account_outcome (w : world) (acc : string) (s : state)
  : result unit * state -> Prop :=
| ao_raises :
    scrape w (length (trace s)) (PyString.lstrip_at acc) = ScrapeRaises ->
    account_outcome w acc s
      (Ok tt, add_trace s [EScrape (PyString.lstrip_at acc);
                           ELogException ("Scrape error for " +:+ acc) ScrapeError])
| ao_empty :
    scrape w (length (trace s)) (PyString.lstrip_at acc) = ScrapeEmpty ->
    account_outcome w acc s (Ok tt, add_trace s [EScrape (PyString.lstrip_at acc)])
| ao_same (t : tweet) :
    scrape w (length (trace s)) (PyString.lstrip_at acc) = ScrapeFirst t ->
    cache s !! acc = Some (tweet_id t) ->
    account_outcome w acc s (Ok tt, add_trace s [EScrape (PyString.lstrip_at acc)])
| ao_stop (t : tweet) (e : exn) :
    scrape w (length (trace s)) (PyString.lstrip_at acc) = ScrapeFirst t ->
    cache s !! acc <> Some (tweet_id t) ->
    content_stripped t = Raise e \/ extract_media_from_tweet t = Raise e ->
    account_outcome w acc s (Raise e, add_trace s [EScrape (PyString.lstrip_at acc)])
| ao_new (t : tweet) (text : string) (media : list media_item) :
    scrape w (length (trace s)) (PyString.lstrip_at acc) = ScrapeFirst t ->
    cache s !! acc <> Some (tweet_id t) ->
    content_stripped t = Ok text ->
    extract_media_from_tweet t = Ok media ->
    account_outcome w acc s
      (Ok tt,
       marked acc (tweet_id t) s
         (EScrape (PyString.lstrip_at acc)
            :: delivery_events w (S (length (trace s)))
                 (telegram_channel (config s)) media (make_caption acc text))).

(** A running state watching [@bob], holding a marker for [@zed], which is
    not watched. *)
Definition state_with_old_marker : state :=
  {| config := {| twitter_accounts := ["@bob"]; interval_minutes := 3;
                  telegram_channel := Some "@ch"; paused := false |};
     cache := {[ "@zed" := "5" ]};
     config_json := None; cache_json := Some {[ "@zed" := "5" ]}; trace := [] |}.

(** The state after a handler stored configuration [c] and saved it (the
    assignment to [config[...]] followed by [save_json(CONFIG_FILE, config)]). *)
Definition saved (c : config_t) (s : state) : state :=
  {| config := c; cache := cache s;
     config_json := Some c; cache_json := cache_json s;
     trace := trace s ++ [EWrite CONFIG_FILE] |}.

(** The changes the handlers make to the configuration. *)
Inductive config_edit (c : config_t) : config_t -> Prop :=
| edit_add (acc : string) :
    PyString.startswith acc "@" = true ->
    acc ∉ twitter_accounts c ->
    config_edit c (set_twitter_accounts (twitter_accounts c ++ [acc]) c)
| edit_remove (acc : string) (l1 l2 : list string) :
    twitter_accounts c = l1 ++ acc :: l2 ->
    acc ∉ l1 ->
    config_edit c (set_twitter_accounts (l1 ++ l2) c)
| edit_channel (ch : string) :
    config_edit c (set_telegram_channel (Some ch) c)
| edit_interval (n : Z) :
    config_edit c (set_interval_minutes (Z.max 1 n) c)
| edit_paused (b : bool) :
    config_edit c (set_paused b c).

(** One action of a session: a command, or some iterations of the poll
    loop. *)
Inductive action :=
| Command (c : command)
| Cycles (n : nat).

Fixpoint after_session (py_int : string -> result Z) (w : world)
         (acts : list action) (s : state) : state :=
  match acts with
  | [] => s
  | Command c :: rest => after_session py_int w rest (handler py_int c s).2
  | Cycles n :: rest => after_session py_int w rest (check_for_new_tweets w n s).2
  end.

(** A session: two adds of the same account under both spellings, a remove,
    a too small interval, a pause and two iterations of the loop. *)
Definition sample_session : list action :=
  [ Command (Add ["foo"]); Command (Add ["@foo"]); Command (Add ["bar"]);
    Command (Remove ["foo"]); Command (SetInterval ["0"]);
    Cycles 2; Command Pause; Cycles 1 ].

(** [dict.fromkeys(l)] as the insertion of the keys one after the other into
    a dictionary holding the keys [seen]: a key already there keeps its
    place. *)
Fixpoint fromkeys_seen (seen l : list string) : list string :=
  match l with
  | [] => []
  | x :: rest =>
    if decide (x ∈ seen) then fromkeys_seen seen rest
    else x :: fromkeys_seen (x :: seen) rest
  end.

(** A watch-list with a duplicate, as a hand-edited [config.json] may hold. *)
Definition state_with_duplicate : state :=
  {| config := {| twitter_accounts := ["@a"; "@b"; "@a"]; interval_minutes := 3;
                  telegram_channel := None; paused := false |};
     cache := ∅; config_json := None; cache_json := None; trace := [] |}.

(** The effects of a delivery to channel [ch]: [bot] calls to [ch] and log
    entries of failures. *)
Definition delivery_effect (ch : option string) (ev : event) : Prop :=
  match ev with
  | ESendMessage c _ | ESendPhoto c _ _ | ESendMediaGroup c _ | ESendVideo c _ => c = ch
  | ELogException _ _ => True
  | _ => False
  end.

(** An effect that is neither a [bot] call nor a write. *)
Definition calm (ev : event) : Prop :=
  match ev with
  | ESendMessage _ _ | ESendPhoto _ _ _ | ESendMediaGroup _ _ | ESendVideo _ _ => False
  | EWrite _ => False
  | _ => True
  end.

(** What [n] iterations of a paused loop do under configuration [c]. *)
Fixpoint idle_events (c : config_t) (n : nat) : list event :=
  match n with
  | O => []
  | S k => ELogInfo "Crawler paused" :: pause_of c :: idle_events c k
  end.

(** A media element whose [fullUrl] holds a number. *)
Definition odd_medium : medium :=
  {| m_class := "Photo"; m_fullUrl := Some (PyInt 42); m_previewUrl := None;
     m_url := None; m_type := None |}.

(** A post with one video and no photo. *)
Definition tweet_video_only : tweet :=
  {| t_id := Some (PyInt 4004); t_content := Some (PyStr "watch this");
     t_media := Some [videoB] |}.

(** A [send_video] call or the log entry of a failure: effects that carry no
    caption. *)
Definition video_or_log (ev : event) : Prop :=
  match ev with
  | ESendVideo _ _ | ELogException _ _ => True
  | _ => False
  end.

(** An effect a delivery leaves when the gateway is called: a [bot] call,
    or the log entry of [send_text] or [send_media] for an exception caught
    inside. *)
Definition gateway_effect (ev : event) : Prop :=
  match ev with
  | ESendMessage _ _ | ESendPhoto _ _ _ | ESendMediaGroup _ _ | ESendVideo _ _ => True
  | ELogException msg _ => msg = "Failed to send text" \/ msg = "Failed to send media"
  | _ => False
  end.

(** The posts of the source's interface: a text that is a string when
    present, URL fields that are absent, [None] or strings. *)
Definition post_typed (t : tweet) : bool :=
  match t_content t with
  | None | Some (PyStr _) => true
  | Some _ => false
  end
  && tweet_typed t.

(** A world in which everybody has [tweet2], a post without media, and every
    [bot] call fails. *)
Definition world_text_down : world :=
  {| scrape := fun _ _ => ScrapeFirst tweet2; bot_raises := fun _ => true |}.

(** * Properties *)

(** ** Sanity checks *)

Example strip_ex1 :
  PyString.strip ("  hello world" +:+ PyString.nl +:+ " ") = "hello world".
Proof. reflexivity. Qed.

Example endswith_ex1 : PyString.endswith (PyString.lower "http://x/A.MP4") ".mp4" = true.
Proof. reflexivity. Qed.

Example contains_ex1 : PyString.contains (PyString.lower "VideoVariant") "video" = true.
Proof. reflexivity. Qed.

Example extract_ex1 :
  extract_media_from_tweet
    {| t_id := Some (PyInt 7); t_content := Some (PyStr "x");
       t_media := Some [photoA; no_url; videoB; photoC] |}
  = Ok [ {| mi_type := "photo"; mi_url := "https://p/a.jpg" |};
         {| mi_type := "video"; mi_url := "https://v/b" |};
         {| mi_type := "photo"; mi_url := "https://p/c_small.jpg" |} ].
Proof. reflexivity. Qed.

Example int_ascii_ex1 : int_ascii "15" = Ok 15.
Proof. reflexivity. Qed.
Example int_ascii_ex2 : int_ascii "-3" = Ok (-3).
Proof. reflexivity. Qed.
Example int_ascii_ex3 : int_ascii "1_000" = Ok 1000.
Proof. reflexivity. Qed.
Example int_ascii_ex4 : int_ascii "abc" = Raise ValueError.
Proof. reflexivity. Qed.
Example int_ascii_ex5 : int_ascii "3.5" = Raise ValueError.
Proof. reflexivity. Qed.
Example int_ascii_ex6 : int_ascii "" = Raise ValueError.
Proof. reflexivity. Qed.

(** ** String helpers *)

Lemma endswith_spec (s p : string) :
  PyString.endswith s p = true <-> exists pre, s = pre +:+ p.
Proof.
  induction s as [|c r IH]; cbn [PyString.endswith].
  - rewrite orb_false_r, String.eqb_eq. split.
    + intros <-. by exists "".
    + intros [pre H]. destruct pre; simpl in H; [done | discriminate].
  - rewrite orb_true_iff, String.eqb_eq, IH. split.
    + intros [<- | [pre ->]]; [by exists "" | by exists (String c pre)].
    + intros [pre H]. destruct pre as [|c' pre]; simpl in H.
      * by left.
      * right. exists pre. by injection H.
Qed.

Lemma has_video_ext_spec (u : string) :
  has_video_ext u = true <-> video_by_extension u.
Proof.
  unfold has_video_ext, video_by_extension, video_exts. cbn [existsb].
  rewrite orb_false_r, !orb_true_iff, !endswith_spec. split.
  - intros [[pre H] | [[pre H] | [pre H]]]; exists pre; auto.
  - intros [pre [H | [H | H]]]; [left | right; left | right; right]; by exists pre.
Qed.

Lemma startswith_spec (p s : string) :
  PyString.startswith s p = true <-> exists post, s = p +:+ post.
Proof.
  revert s. induction p as [|c p IH]; intros s; cbn [PyString.startswith].
  - split; [by exists s | done].
  - destruct s as [|d s]; [split; [done | by intros [post H]] |].
    rewrite andb_true_iff, IH, Ascii.eqb_eq. split.
    + intros [-> [post ->]]. by exists post.
    + intros [post H]. injection H as -> ->. split; [done | by exists post].
Qed.

Lemma contains_spec (s p : string) :
  PyString.contains s p = true <-> exists pre post, s = pre +:+ p +:+ post.
Proof.
  induction s as [|c r IH]; cbn [PyString.contains].
  - rewrite orb_false_r, startswith_spec. split.
    + intros [post ->]. by exists "", post.
    + intros [[|c pre] [post H]]; [by exists post | discriminate H].
  - rewrite orb_true_iff, startswith_spec, IH. split.
    + intros [[post ->] | (pre & post & ->)];
        [by exists "", post | by exists (String c pre), post].
    + intros [[|d pre] [post H]].
      * left. by exists post.
      * right. injection H as -> ->. by exists pre, post.
Qed.

Lemma tagged_video_spec (m : medium) :
  tagged_video m = true <-> explicit_video m.
Proof.
  unfold tagged_video, explicit_video.
  rewrite orb_true_iff, contains_spec.
  assert (pyval_eq_str (getattr (m_type m) (PyStr "")) "video" = true
          <-> m_type m = Some (PyStr "video")) as ->; [|done].
  destruct (m_type m) as [[|s|z]|]; cbn [getattr pyval_eq_str]; try done.
  rewrite String.eqb_eq. split; [by intros -> | by intros [= ->]].
Qed.

(** ** Media normalizer *)

Lemma nonempty_truthy (a : option pyval) :
  str_or_none a = true ->
  match nonempty a with
  | Some u => has_truthy a = true /\ getattr a PyNone = PyStr u
  | None => has_truthy a = false
  end.
Proof.
  destruct a as [[|s|z]|]; simpl; try done.
  destruct (String.eqb s ""); simpl; auto.
Qed.

Lemma nonempty_not_empty (a : option pyval) (u : string) :
  nonempty a = Some u -> String.eqb u "" = false.
Proof.
  destruct a as [[|s|z]|]; simpl; try done.
  destruct (String.eqb s "") eqn:E; [done | congruence].
Qed.

Lemma resolved_url_not_empty (m : medium) (u : string) :
  resolved_url m = Some u -> String.eqb u "" = false.
Proof.
  unfold resolved_url.
  destruct (nonempty (m_fullUrl m)) eqn:E1;
    [intros [= <-]; eauto using nonempty_not_empty |].
  destruct (nonempty (m_previewUrl m)) eqn:E2;
    [intros [= <-]; eauto using nonempty_not_empty |].
  eauto using nonempty_not_empty.
Qed.

Lemma pick_url_typed (m : medium) :
  medium_typed m = true ->
  match resolved_url m with
  | Some u => pick_url m = PyStr u
  | None => truthy (pick_url m) = false
  end.
Proof.
  unfold medium_typed, resolved_url, pick_url.
  rewrite !andb_true_iff. intros [[H1 H2] H3].
  apply nonempty_truthy in H1, H2, H3.
  destruct (nonempty (m_fullUrl m)); [destruct H1 as [-> ->]; done | rewrite H1].
  destruct (nonempty (m_previewUrl m)); [destruct H2 as [-> ->]; done | rewrite H2].
  destruct (nonempty (m_url m)); [destruct H3 as [-> ->]; done | rewrite H3].
  done.
Qed.

Lemma kind_of_swap (m : medium) (u : string) :
  (if has_video_ext u then "video" else if tagged_video m then "video" else "photo")
  = kind_of m u.
Proof. unfold kind_of. by destruct (has_video_ext u), (tagged_video m). Qed.

Lemma extract_one_typed (m : medium) :
  medium_typed m = true -> extract_one m = Ok (normalized m).
Proof.
  intros Ht. unfold extract_one, normalized.
  pose proof (pick_url_typed m Ht) as Hp.
  destruct (resolved_url m) as [u|] eqn:Er.
  - rewrite Hp. simpl. rewrite (resolved_url_not_empty m u Er). simpl.
    by rewrite kind_of_swap.
  - by rewrite Hp.
Qed.

Lemma extract_loop_typed (ms : list medium) (media_list : list media_item) :
  forallb medium_typed ms = true ->
  extract_loop ms media_list = Ok (media_list ++ omap normalized ms)%list.
Proof.
  revert media_list. induction ms as [|m ms IH]; intros media_list; simpl.
  - by rewrite app_nil_r.
  - rewrite andb_true_iff. intros [Hm Hms].
    rewrite (extract_one_typed m Hm).
    destruct (normalized m) as [it|]; rewrite IH by done; [|done].
    by rewrite <- app_assoc.
Qed.

Lemma extract_media_typed (t : tweet) :
  tweet_typed t = true ->
  extract_media_from_tweet t = Ok (omap normalized (media_of t)).
Proof.
  unfold tweet_typed, media_of, extract_media_from_tweet.
  destruct (t_media t) as [[|m ms]|]; simpl; try done.
  intros H. apply (extract_loop_typed (m :: ms) []). done.
Qed.

Lemma urls_of_normalized (ms : list medium) :
  mi_url <$> omap normalized ms = omap resolved_url ms.
Proof.
  induction ms as [|m ms IH]; [done |].
  cbn [omap list_omap]. unfold normalized at 1.
  destruct (resolved_url m); [rewrite fmap_cons; cbn [mi_url] |]; by rewrite IH.
Qed.

(** C3. On every post whose URL attributes are absent, [None] or strings,
    the normalizer returns, in the order of the post's media list, exactly
    the URLs of the elements that resolve one, the URL of an element being
    the first non-empty of [fullUrl], [previewUrl], [url]; an element
    resolving none contributes nothing and raises nothing. *)
Theorem normalizer_urls_in_order (t : tweet) :
  tweet_typed t = true ->
  exists items,
    extract_media_from_tweet t = Ok items
    /\ mi_url <$> items = omap resolved_url (media_of t).
Proof.
  intros Ht. exists (omap normalized (media_of t)). split.
  - by apply extract_media_typed.
  - apply urls_of_normalized.
Qed.

Lemma normalizer_urls_in_order_witness :
  exists items,
    extract_media_from_tweet
      {| t_id := Some (PyInt 7); t_content := Some (PyStr "x");
         t_media := Some [photoA; no_url; videoB; photoC] |} = Ok items
    /\ mi_url <$> items = ["https://p/a.jpg"; "https://v/b"; "https://p/c_small.jpg"].
Proof.
  apply (normalizer_urls_in_order
           {| t_id := Some (PyInt 7); t_content := Some (PyStr "x");
              t_media := Some [photoA; no_url; videoB; photoC] |}).
  reflexivity.
Defined.

Lemma normalized_classified (m : medium) (u : string) :
  classified m {| mi_type := kind_of m u; mi_url := u |}.
Proof.
  unfold classified, kind_of. cbn [mi_type mi_url].
  rewrite <- tagged_video_spec, <- has_video_ext_spec.
  destruct (tagged_video m); [by split |].
  split; [done | intros _].
  destruct (has_video_ext u); [by left | right]. by split.
Qed.

Lemma normalized_kinds (ms : list medium) :
  Forall2 (fun m it => resolved_url m = Some (mi_url it) /\ classified m it)
          (filter (fun m => is_Some (resolved_url m)) ms)
          (omap normalized ms).
Proof.
  induction ms as [|m ms IH]; [constructor |].
  cbn [omap list_omap]. unfold normalized at 1.
  destruct (resolved_url m) as [u|] eqn:Er.
  - rewrite filter_cons_True by (rewrite Er; by eexists).
    constructor; [|exact IH]. split; [done | apply normalized_classified].
  - rewrite filter_cons_False by (rewrite Er; by intros [? ?]).
    exact IH.
Qed.

(** C4. On every post whose URL attributes are absent, [None] or strings,
    the normalizer returns one item for each element that resolves a
    URL, in order, and the item of such an element holds that URL and is a
    video when an explicit signal says the element is one (a class name in
    which [video] occurs, in whatever case, or a [type] attribute equal to
    [video]); without such a signal it is a video exactly when its
    lowercased URL ends in [.mp4], [.mov] or [.webm], and a photo in every
    other case. *)
Theorem normalizer_kinds (t : tweet) :
  tweet_typed t = true ->
  exists items,
    extract_media_from_tweet t = Ok items
    /\ Forall2
         (fun m it =>
            resolved_url m = Some (mi_url it)
            /\ (explicit_video m -> mi_type it = "video")
            /\ (~ explicit_video m ->
                (video_by_extension (mi_url it) /\ mi_type it = "video")
                \/ (~ video_by_extension (mi_url it) /\ mi_type it = "photo")))
         (filter (fun m => is_Some (resolved_url m)) (media_of t))
         items.
Proof.
  intros Ht. exists (omap normalized (media_of t)). split.
  - by apply extract_media_typed.
  - apply normalized_kinds.
Qed.

Lemma normalizer_kinds_witness :
  exists items,
    extract_media_from_tweet tweet_mixed = Ok items
    /\ Forall2
         (fun m it =>
            resolved_url m = Some (mi_url it)
            /\ (explicit_video m -> mi_type it = "video")
            /\ (~ explicit_video m ->
                (video_by_extension (mi_url it) /\ mi_type it = "video")
                \/ (~ video_by_extension (mi_url it) /\ mi_type it = "photo")))
         [photoA; clip_mov; tagged_clip; videoB]
         items.
Proof.
  apply (normalizer_kinds tweet_mixed).
  reflexivity.
Defined.

Example normalizer_kinds_ex :
  extract_media_from_tweet tweet_mixed
  = Ok [ {| mi_type := "photo"; mi_url := "https://p/a.jpg" |};
         {| mi_type := "video"; mi_url := "https://v/Clip.MOV" |};
         {| mi_type := "video"; mi_url := "https://v/stream" |};
         {| mi_type := "video"; mi_url := "https://v/b" |} ].
Proof. reflexivity. Qed.

(** ** Effects *)

Lemma add_trace_nil (s : state) : add_trace s [] = s.
Proof. destruct s. unfold add_trace. simpl. by rewrite app_nil_r. Qed.

Lemma add_trace_add (s : state) (a b : list event) :
  add_trace (add_trace s a) b = add_trace s (a ++ b).
Proof. unfold add_trace. simpl. by rewrite app_assoc. Qed.

Lemma length_trace_add (s : state) (a : list event) :
  length (trace (add_trace s a)) = (length (trace s) + length a)%nat.
Proof. unfold add_trace. simpl. apply length_app. Qed.

Lemma new_events_add (s : state) (a : list event) :
  new_events s (add_trace s a) = a.
Proof. unfold new_events, add_trace. simpl. by rewrite drop_app_length. Qed.

Lemma emit_eq (ev : event) (s : state) : emit ev s = (Ok tt, add_trace s [ev]).
Proof. reflexivity. Qed.

Lemma bind_unit_ret (m : M unit) (s : state) : bind m (fun _ => ret tt) s = m s.
Proof. unfold bind, ret. by destruct (m s) as [[[]|e] s']. Qed.

Lemma bind_ext {A B} (m m' : M A) (k : A -> M B) (s : state) :
  m s = m' s -> bind m k s = bind m' k s.
Proof. unfold bind. by intros ->. Qed.

Lemma bind_assoc {A B C} (m : M A) (k : A -> M B) (h : B -> M C) (s : state) :
  bind (bind m k) h s = bind m (fun a => bind (k a) h) s.
Proof. unfold bind. by destruct (m s) as [[a|e] s']. Qed.

Lemma bind_ext_k {A B} (m : M A) (k k' : A -> M B) (s : state) :
  (forall a s', k a s' = k' a s') -> bind m k s = bind m k' s.
Proof. intros H. unfold bind. destruct (m s) as [[a|e] s']; [apply H | done]. Qed.

Lemma for_each_app {A} (a b : list A) (body : A -> M unit) (s : state) :
  for_each (a ++ b) body s = bind (for_each a body) (fun _ => for_each b body) s.
Proof.
  revert s. induction a as [|x a IH]; intros s; [done |].
  simpl. rewrite bind_assoc. apply bind_ext_k. intros _ s'. apply IH.
Qed.

Lemma for_each_map {A B} (f : A -> B) (l : list A) (body : B -> M unit) (s : state) :
  for_each (map f l) body s = for_each l (fun x => body (f x)) s.
Proof.
  revert s. induction l as [|x l IH]; intros s; [done |].
  simpl. apply bind_ext_k. intros _ s'. apply IH.
Qed.

Section Gateway.

Variable w : world.

Lemma bot_call_eq (ev : event) (s : state) :
  bot_call w ev s
  = (if bot_raises w (length (trace s)) then Raise TelegramError else Ok tt,
     add_trace s [ev]).
Proof. unfold bot_call. rewrite emit_eq. by destruct (bot_raises w _). Qed.

Lemma for_each_calls (calls : list event) (s : state) :
  for_each calls (bot_call w) s
  = (if any_raises w (length (trace s)) calls then Raise TelegramError else Ok tt,
     add_trace s (attempted w (length (trace s)) calls)).
Proof.
  revert s. induction calls as [|ev calls IH]; intros s; simpl.
  - by rewrite add_trace_nil.
  - unfold bind. rewrite bot_call_eq.
    destruct (bot_raises w (length (trace s))) eqn:E; simpl; [done |].
    rewrite IH, add_trace_add, length_trace_add. simpl.
    by replace (length (trace s) + 1)%nat with (S (length (trace s))) by lia.
Qed.

Lemma send_text_eq (ch : option string) (text : string) (s : state) :
  send_text w ch text s
  = (Ok tt,
     add_trace s (ESendMessage ch text ::
                  if bot_raises w (length (trace s))
                  then [ELogException "Failed to send text" TelegramError] else [])).
Proof.
  unfold send_text, try_except. rewrite bot_call_eq.
  destruct (bot_raises w _); [|done].
  by rewrite emit_eq, add_trace_add.
Qed.

Lemma photo_part_eq (ch : option string) (photos : list string) (caption : string)
      (s : state) :
  (length photos <= 1)%nat ->
  match photos with
  | [] => ret tt
  | [p] => bot_call w (ESendPhoto ch p caption)
  | _ => raise (AttributeError "InputMediaPhoto" "caption")
  end s
  = for_each (photo_sends ch photos caption) (bot_call w) s.
Proof.
  destruct photos as [|p [|q rest]]; simpl; intros Hl; try done.
  - by rewrite bind_unit_ret.
  - lia.
Qed.

Lemma calls_part_eq (ch : option string) (photos videos : list string)
      (caption : string) (final : M unit) (s : state) :
  (length photos <= 1)%nat ->
  bind (match photos with
        | [] => ret tt
        | [p] => bot_call w (ESendPhoto ch p caption)
        | _ => raise (AttributeError "InputMediaPhoto" "caption")
        end)
       (fun _ => bind (for_each videos (fun v => bot_call w (ESendVideo ch v)))
                      (fun _ => final)) s
  = bind (for_each (photo_sends ch photos caption ++ map (ESendVideo ch) videos)
                   (bot_call w))
         (fun _ => final) s.
Proof.
  intros Hl. etransitivity; [by apply bind_ext, photo_part_eq |].
  symmetry. etransitivity; [apply bind_ext, for_each_app |].
  rewrite bind_assoc. apply bind_ext_k. intros _ s'.
  apply bind_ext, for_each_map.
Qed.

(** [send_media] with at most one photo: the calls of the plan, up to the
    first that raises. *)
Lemma send_media_few_photos (ch : option string) (media_urls : list media_item)
      (caption : string) (s : state) :
  media_urls <> [] ->
  (length (urls_of_type "photo" media_urls) <= 1)%nat ->
  send_media w ch media_urls caption s
  = (Ok tt,
     add_trace s
       (attempted w (length (trace s)) (delivery_plan ch media_urls caption)
        ++ if any_raises w (length (trace s)) (delivery_plan ch media_urls caption)
           then failure_log media_urls else [])).
Proof.
  intros Hne. unfold send_media.
  destruct media_urls as [|m0 rest0]; [done |].
  set (media := m0 :: rest0).
  unfold try_except, delivery_plan, failure_log, text_fallback.
  set (photos := urls_of_type "photo" media).
  set (videos := urls_of_type "video" media).
  intros Hl. rewrite calls_part_eq by done. unfold bind. rewrite for_each_calls.
  destruct photos as [|p ps] eqn:Ep; destruct videos as [|v vs] eqn:Ev.
  - simpl. rewrite add_trace_nil.
    destruct (String.eqb caption "") eqn:Ec; simpl.
    + by rewrite add_trace_nil.
    + rewrite send_text_eq. rewrite orb_false_r.
      by destruct (bot_raises w (length (trace s))).
  - rewrite !app_nil_r.
    destruct (any_raises w _ _);
      [by rewrite emit_eq, add_trace_add | by rewrite app_nil_r].
  - rewrite !app_nil_r.
    destruct (any_raises w _ _);
      [by rewrite emit_eq, add_trace_add | by rewrite app_nil_r].
  - rewrite !app_nil_r.
    destruct (any_raises w _ _);
      [by rewrite emit_eq, add_trace_add | by rewrite app_nil_r].
Qed.

(** [send_media] with several photos: line 72 raises before any [bot]
    call, and the exception is logged. *)
Lemma send_media_many_photos (ch : option string) (media_urls : list media_item)
      (caption : string) (s : state) (p q : string) (r : list string) :
  urls_of_type "photo" media_urls = p :: q :: r ->
  send_media w ch media_urls caption s
  = (Ok tt,
     add_trace s [ELogException "Failed to send media"
                    (AttributeError "InputMediaPhoto" "caption")]).
Proof.
  intros Hp. unfold send_media.
  destruct media_urls as [|m0 rest0]; [done |].
  unfold try_except, bind, raise. by rewrite Hp.
Qed.

(** What [send_media] does on a non-empty list, whatever the world. *)
Lemma send_media_eq (ch : option string) (media_urls : list media_item)
      (caption : string) (s : state) :
  media_urls <> [] ->
  send_media w ch media_urls caption s
  = (Ok tt, add_trace s (delivery_events w (length (trace s)) ch media_urls caption)).
Proof.
  intros Hne. unfold delivery_events.
  destruct media_urls as [|m0 rest0]; [done |].
  destruct (urls_of_type "photo" (m0 :: rest0)) as [|p [|q r]] eqn:Hp.
  - rewrite send_media_few_photos by (done || rewrite Hp; cbn; lia). done.
  - rewrite send_media_few_photos by (done || rewrite Hp; cbn; lia). done.
  - by rewrite (send_media_many_photos ch _ caption s p q r Hp).
Qed.

End Gateway.

(** ** Delivery gateway *)

Lemma attempted_quiet (w : world) (clock : nat) (calls : list event) :
  any_raises w clock calls = false -> attempted w clock calls = calls.
Proof.
  revert clock. induction calls as [|ev calls IH]; intros clock; simpl; [done |].
  rewrite orb_false_iff. intros [-> H]. by rewrite IH.
Qed.

Lemma attempted_prefix (w : world) (clock : nat) (calls : list event) :
  attempted w clock calls `prefix_of` calls.
Proof.
  revert clock. induction calls as [|ev calls IH]; intros clock; simpl; [done |].
  apply prefix_cons. destruct (bot_raises w clock); [apply prefix_nil | apply IH].
Qed.

(** With one photo and one video, when the photo send raises, the exception
    leaves the [try] block of [send_media] and the video is never sent,
    although the video send itself would not have failed. *)
Example video_skipped_after_photo_failure :
  delivery_plan (Some "@ch") [item_photo1; item_video1] "cap"
  = [ESendPhoto (Some "@ch") "https://p/1.jpg" "cap";
     ESendVideo (Some "@ch") "https://v/1.mp4"]
  /\ send_media world_first_call_fails (Some "@ch") [item_photo1; item_video1] "cap"
                (initial_state None)
     = (Ok tt,
        add_trace (initial_state None)
          [ESendPhoto (Some "@ch") "https://p/1.jpg" "cap";
           ELogException "Failed to send media" TelegramError]).
Proof. split; reflexivity. Qed.

(** With at most one photo and no call raising, the [bot] calls of
    [send_media] are those of the delivery contract, in its order. *)
Lemma few_photos_follow_plan (w : world) (ch : option string)
      (media_urls : list media_item) (caption : string) (s : state) :
  media_urls <> [] ->
  (length (urls_of_type "photo" media_urls) <= 1)%nat ->
  any_raises w (length (trace s)) (delivery_plan ch media_urls caption) = false ->
  send_media w ch media_urls caption s
  = (Ok tt, add_trace s (delivery_plan ch media_urls caption)).
Proof.
  intros Hne Hl Hq. rewrite send_media_few_photos by done.
  by rewrite Hq, attempted_quiet, app_nil_r.
Qed.

Example one_photo_one_video_ex :
  send_media world_up (Some "@ch") [item_video1; item_photo1] "cap" (initial_state None)
  = (Ok tt,
     add_trace (initial_state None)
       [ ESendPhoto (Some "@ch") "https://p/1.jpg" "cap";
         ESendVideo (Some "@ch") "https://v/1.mp4" ]).
Proof. reflexivity. Qed.

(** C5.  With several photos the grouped send the contract asks for is never
    made.  The contract's plan for such a list is one grouped send, the
    caption on its first item only, followed by one send per video; the code
    builds the group, fails on the assignment of the caption (line 72), and
    the [except] clause of line 81 logs the exception: in every world,
    whether or not a [bot] call would raise, [send_media] returns having made
    no [bot] call at all, so neither the photos nor the videos are sent. *)
Theorem several_photos_are_never_sent (w : world) (ch : option string)
        (media_urls : list media_item) (caption : string) (s : state)
        (p q : string) (r : list string) :
  urls_of_type "photo" media_urls = p :: q :: r ->
  delivery_plan ch media_urls caption
  = ESendMediaGroup ch
      ({| imp_media := p; imp_caption := Some caption |}
         :: {| imp_media := q; imp_caption := None |}
         :: map (fun u => {| imp_media := u; imp_caption := None |}) r)
      :: map (ESendVideo ch) (urls_of_type "video" media_urls)
  /\ send_media w ch media_urls caption s
     = (Ok tt,
        {| config := config s; cache := cache s;
           config_json := config_json s; cache_json := cache_json s;
           trace := trace s
                    ++ [ELogException "Failed to send media"
                          (AttributeError "InputMediaPhoto" "caption")] |}).
Proof.
  intros Hp. split.
  - unfold delivery_plan, text_fallback. rewrite Hp. cbn [photo_sends map app].
    by rewrite app_nil_r.
  - by rewrite (send_media_many_photos w ch media_urls caption s p q r Hp).
Qed.

Lemma several_photos_are_never_sent_witness :
  delivery_plan (Some "@ch") [item_photo1; item_photo2; item_video1] "cap"
  = [ ESendMediaGroup (Some "@ch")
        [ {| imp_media := "https://p/1.jpg"; imp_caption := Some "cap" |};
          {| imp_media := "https://p/2.jpg"; imp_caption := None |} ];
      ESendVideo (Some "@ch") "https://v/1.mp4" ]
  /\ send_media world_up (Some "@ch") [item_photo1; item_photo2; item_video1] "cap"
                (initial_state None)
     = (Ok tt,
        {| config := config (initial_state None); cache := ∅;
           config_json := None; cache_json := None;
           trace := [ELogException "Failed to send media"
                       (AttributeError "InputMediaPhoto" "caption")] |}).
Proof.
  apply (several_photos_are_never_sent world_up (Some "@ch")
           [item_photo1; item_photo2; item_video1] "cap" (initial_state None)
           "https://p/1.jpg" "https://p/2.jpg" []).
  reflexivity.
Defined.

(** ** Quiet computations *)

Create HintDb quiet discriminated.

Lemma quiet_ret {A} (a : A) : quiet (ret a).
Proof. intros s. exists []. simpl. by rewrite app_nil_r. Qed.

Lemma quiet_lift {A} (r : result A) : quiet (lift r).
Proof. intros s. exists []. simpl. by rewrite app_nil_r. Qed.

Lemma quiet_raise {A} (e : exn) : quiet (raise (A:=A) e).
Proof. intros s. exists []. simpl. by rewrite app_nil_r. Qed.

Lemma quiet_get_config : quiet get_config.
Proof. intros s. exists []. simpl. by rewrite app_nil_r. Qed.

Lemma quiet_get_cache : quiet get_cache.
Proof. intros s. exists []. simpl. by rewrite app_nil_r. Qed.

Lemma quiet_set_cache (c : gmap string string) : quiet (set_cache c).
Proof. intros s. exists []. simpl. by rewrite app_nil_r. Qed.

Lemma quiet_save_cache : quiet (save_json CACHE_FILE).
Proof. intros s. exists [EWrite CACHE_FILE]. simpl. repeat constructor. Qed.

Lemma quiet_emit (ev : event) : is_sleep ev = false -> quiet (emit ev).
Proof. intros H s. exists [ev]. simpl. repeat constructor. done. Qed.

Lemma quiet_bind {A B} (m : M A) (k : A -> M B) :
  quiet m -> (forall a, quiet (k a)) -> quiet (bind m k).
Proof.
  intros Hm Hk s. unfold bind.
  destruct (Hm s) as (e1 & Ht1 & Hf1 & Hc1).
  destruct (m s) as [[a|e] s1]; simpl in *.
  - destruct (Hk a s1) as (e2 & Ht2 & Hf2 & Hc2).
    exists (e1 ++ e2). rewrite Ht2, Ht1, Hc2, Hc1, app_assoc.
    split; [done |]. split; [by apply Forall_app | done].
  - by exists e1.
Qed.

Lemma quiet_try_except {A} (body : M A) (handler : exn -> M A) :
  quiet body -> (forall e, quiet (handler e)) -> quiet (try_except body handler).
Proof.
  intros Hm Hk s. unfold try_except.
  destruct (Hm s) as (e1 & Ht1 & Hf1 & Hc1).
  destruct (body s) as [[a|e] s1]; simpl in *.
  - by exists e1.
  - destruct (Hk e s1) as (e2 & Ht2 & Hf2 & Hc2).
    exists (e1 ++ e2). rewrite Ht2, Ht1, Hc2, Hc1, app_assoc.
    split; [done |]. split; [by apply Forall_app | done].
Qed.

Lemma quiet_for_each {A} (l : list A) (body : A -> M unit) :
  (forall x, quiet (body x)) -> quiet (for_each l body).
Proof.
  intros Hb. induction l as [|x l IH]; simpl.
  - apply quiet_ret.
  - apply quiet_bind; [apply Hb | by intros _].
Qed.

Lemma quiet_bot_call (w : world) (ev : event) :
  is_sleep ev = false -> quiet (bot_call w ev).
Proof.
  intros H s. exists [ev]. rewrite bot_call_eq. simpl. repeat constructor. done.
Qed.

#[local] Hint Resolve quiet_ret quiet_lift quiet_raise quiet_get_config quiet_get_cache
  quiet_set_cache quiet_save_cache quiet_emit quiet_bind quiet_try_except
  quiet_for_each quiet_bot_call : quiet.

Ltac quiet_auto :=
  repeat first
    [ apply quiet_bind; [|intros ?]
    | apply quiet_try_except; [|intros ?]
    | apply quiet_for_each; intros ?
    | apply quiet_bot_call; reflexivity
    | apply quiet_emit; reflexivity
    | solve [auto with quiet]
    | match goal with
      | |- quiet (match ?x with _ => _ end) => destruct x
      end ].

Lemma quiet_send_text (w : world) (ch : option string) (text : string) :
  quiet (send_text w ch text).
Proof. unfold send_text. quiet_auto. Qed.

#[local] Hint Resolve quiet_send_text : quiet.

Lemma quiet_send_media (w : world) (ch : option string) (media_urls : list media_item)
      (caption : string) :
  quiet (send_media w ch media_urls caption).
Proof.
  unfold send_media. destruct media_urls as [|m0 rest0]; [quiet_auto |].
  generalize (urls_of_type "photo" (m0 :: rest0)) as photos.
  generalize (urls_of_type "video" (m0 :: rest0)) as videos.
  intros videos photos. quiet_auto.
Qed.

#[local] Hint Resolve quiet_send_media : quiet.

Lemma get_latest_tweet_sync_eq (w : world) (acc : string) (s : state) :
  get_latest_tweet_sync w acc s
  = match scrape w (length (trace s)) (PyString.lstrip_at acc) with
    | ScrapeFirst t => (Ok (Some t), add_trace s [EScrape (PyString.lstrip_at acc)])
    | ScrapeEmpty => (Ok None, add_trace s [EScrape (PyString.lstrip_at acc)])
    | ScrapeRaises =>
      (Ok None,
       add_trace s [EScrape (PyString.lstrip_at acc);
                    ELogException ("Scrape error for " +:+ acc) ScrapeError])
    end.
Proof.
  unfold get_latest_tweet_sync. rewrite emit_eq.
  destruct (scrape w _ _); try done.
  unfold bind. by rewrite emit_eq, add_trace_add.
Qed.

Lemma quiet_get_latest_tweet_sync (w : world) (acc : string) :
  quiet (get_latest_tweet_sync w acc).
Proof.
  intros s. rewrite get_latest_tweet_sync_eq.
  destruct (scrape w _ _); eexists; simpl; (split; [done |]);
    split; try done; repeat constructor.
Qed.

Lemma quiet_deliver_new (w : world) (acc : string) (t : tweet) (tid : string) :
  quiet (deliver_new w acc t tid).
Proof. unfold deliver_new. quiet_auto. Qed.

Lemma quiet_process_account (w : world) (acc : string) :
  quiet (process_account w acc).
Proof.
  unfold process_account.
  apply quiet_bind; [apply quiet_get_latest_tweet_sync | intros [t|]];
    [|quiet_auto].
  apply quiet_bind; [quiet_auto | intros c].
  case_decide; [apply quiet_deliver_new | quiet_auto].
Qed.

Lemma quiet_cycle_body (w : world) : quiet (cycle_body w).
Proof.
  unfold cycle_body.
  apply quiet_bind; [quiet_auto | intros cfg].
  destruct (paused cfg); [quiet_auto |].
  apply quiet_bind; [quiet_auto | intros _].
  apply quiet_for_each. apply quiet_process_account.
Qed.

(** ** The poll loop *)

Lemma sleeps_app (a b : list event) : sleeps (a ++ b) = (sleeps a + sleeps b)%nat.
Proof. unfold sleeps. by rewrite List.filter_app, length_app. Qed.

Lemma sleeps_quiet (evs : list event) :
  Forall (fun ev => is_sleep ev = false) evs -> sleeps evs = O.
Proof.
  unfold sleeps. induction 1 as [|ev evs Hev _ IH]; [done |].
  simpl. by rewrite Hev.
Qed.

Lemma poll_cycle_eq (w : world) (s : state) :
  poll_cycle w s
  = match cycle_body w s with
    | (Ok _, s1) => then_sleep s1 []
    | (Raise e, s1) => then_sleep s1 [ELogException "Error in check loop" e]
    end.
Proof.
  unfold poll_cycle, bind, try_except, then_sleep, pause_fits, pause_seconds,
    asyncio_sleep, raise.
  destruct (cycle_body w s) as [[[]|e] s1].
  - unfold get_config. destruct (sleep_overflows _); [|done].
    destruct s1. cbn. by rewrite app_nil_r.
  - rewrite emit_eq. unfold get_config. cbn [config add_trace].
    destruct (sleep_overflows _); [done |].
    rewrite emit_eq. unfold add_trace. cbn. by rewrite <- app_assoc.
Qed.

Lemma then_sleep_fits (s : state) (evs : list event) :
  pause_fits (config s) = true ->
  then_sleep s evs = (Ok tt, add_trace s (evs ++ [pause_of (config s)])).
Proof. intros H. unfold then_sleep. by rewrite H. Qed.

Lemma then_sleep_state (s : state) (evs : list event) :
  exists evs', (then_sleep s evs).2 = add_trace s (evs ++ evs')
               /\ (evs' = [] \/ evs' = [pause_of (config s)]).
Proof.
  unfold then_sleep. destruct (pause_fits (config s)).
  - exists [pause_of (config s)]. split; [done | by right].
  - exists []. split; [cbn; by rewrite app_nil_r | by left].
Qed.

Lemma then_sleep_cache (s : state) (evs : list event) :
  cache (then_sleep s evs).2 = cache s.
Proof. unfold then_sleep. by destruct (pause_fits (config s)). Qed.

(** An iteration in general: effects that are not pauses, then the pause
    when it fits, [OverflowError] when it does not. *)
Lemma poll_cycle_ends (w : world) (s : state) :
  exists s' evs,
    poll_cycle w s
    = (if pause_fits (config s) then Ok tt else Raise OverflowError, s')
    /\ trace s' = trace s ++ evs
                          ++ (if pause_fits (config s) then [pause_of (config s)] else [])
    /\ Forall (fun ev => is_sleep ev = false) evs
    /\ config s' = config s.
Proof.
  rewrite poll_cycle_eq.
  destruct (quiet_cycle_body w s) as (evs & Ht & Hf & Hc).
  destruct (cycle_body w s) as [[[]|e] s1]; cbn [snd] in *;
    unfold then_sleep; rewrite Hc.
  - exists (then_sleep s1 []).2, evs. unfold then_sleep. rewrite Hc.
    destruct (pause_fits (config s)); cbn [snd trace config];
      rewrite Ht, ?Hc, <- ?app_assoc, ?app_nil_r; done.
  - exists (then_sleep s1 [ELogException "Error in check loop" e]).2,
           (evs ++ [ELogException "Error in check loop" e]).
    unfold then_sleep. rewrite Hc.
    assert (Forall (fun ev => is_sleep ev = false)
                   (evs ++ [ELogException "Error in check loop" e])) as Hf'
      by (apply Forall_app; split; [done | by repeat constructor]).
    destruct (pause_fits (config s)); cbn [snd trace config];
      rewrite Ht, ?Hc, <- ?app_assoc, ?app_nil_r; done.
Qed.

Lemma poll_cycle_shape (w : world) (s : state) :
  pause_fits (config s) = true ->
  exists s' evs,
    poll_cycle w s = (Ok tt, s')
    /\ trace s' = trace s ++ evs ++ [pause_of (config s)]
    /\ Forall (fun ev => is_sleep ev = false) evs
    /\ config s' = config s.
Proof.
  intros Hfit. rewrite poll_cycle_eq.
  destruct (quiet_cycle_body w s) as (evs & Ht & Hf & Hc).
  destruct (cycle_body w s) as [[[]|e] s1]; simpl in *;
    rewrite then_sleep_fits by (by rewrite Hc).
  - exists (add_trace s1 [pause_of (config s1)]), evs. simpl.
    by rewrite Ht, Hc, app_assoc.
  - exists (add_trace s1 [ELogException "Error in check loop" e; pause_of (config s1)]),
           (evs ++ [ELogException "Error in check loop" e]). simpl.
    rewrite Ht, Hc, <- !app_assoc. split; [done |]. split; [done |].
    split; [|done]. apply Forall_app. split; [done |]. by repeat constructor.
Qed.

Lemma check_loop_shape (w : world) (n : nat) (s : state) :
  pause_fits (config s) = true ->
  exists s' evs,
    check_for_new_tweets w n s = (Ok tt, s')
    /\ trace s' = trace s ++ evs
    /\ sleeps evs = n
    /\ config s' = config s.
Proof.
  revert s. induction n as [|n IH]; intros s Hfit; simpl.
  - exists s, []. by rewrite app_nil_r.
  - destruct (poll_cycle_shape w s Hfit) as (s1 & e1 & Hp & Ht1 & Hf1 & Hc1).
    destruct (IH s1) as (s2 & e2 & Hl & Ht2 & Hn2 & Hc2); [by rewrite Hc1 |].
    exists s2, ((e1 ++ [pause_of (config s)]) ++ e2).
    unfold bind. rewrite Hp, Hl, Ht2, Ht1, Hc2, Hc1, <- !app_assoc.
    split; [done |]. split; [done |]. split; [|done].
    rewrite !sleeps_app, (sleeps_quiet e1 Hf1), Hn2. done.
Qed.

(** ** The account step *)

Lemma delivery_eq (w : world) (ch : option string) (media : list media_item)
      (caption : string) (s : state) :
  match media with
  | [] => send_text w ch caption
  | _ => send_media w ch media caption
  end s
  = (Ok tt, add_trace s (delivery_events w (length (trace s)) ch media caption)).
Proof.
  destruct media as [|m0 rest0]; [apply send_text_eq |].
  by rewrite send_media_eq.
Qed.

Lemma deliver_new_eq (w : world) (acc : string) (t : tweet) (tid : string) (s : state)
      (text : string) (media : list media_item) :
  content_stripped t = Ok text ->
  extract_media_from_tweet t = Ok media ->
  deliver_new w acc t tid s
  = (Ok tt,
     marked acc tid s
       (delivery_events w (length (trace s)) (telegram_channel (config s)) media
                        (make_caption acc text))).
Proof.
  intros Hc Hm. unfold deliver_new. rewrite Hc, Hm.
  unfold bind at 1. unfold lift at 1. unfold bind at 1. unfold lift at 1.
  unfold bind at 1. unfold get_config at 1. unfold bind at 1.
  rewrite delivery_eq. unfold marked, add_trace, bind, get_cache, set_cache, save_json.
  simpl. by rewrite <- app_assoc.
Qed.

Lemma process_account_eq (w : world) (acc : string) (s : state) (t : tweet)
      (text : string) (media : list media_item) :
  scrape w (length (trace s)) (PyString.lstrip_at acc) = ScrapeFirst t ->
  content_stripped t = Ok text ->
  extract_media_from_tweet t = Ok media ->
  process_account w acc s
  = (Ok tt,
     if decide (cache s !! acc = Some (tweet_id t))
     then add_trace s [EScrape (PyString.lstrip_at acc)]
     else marked acc (tweet_id t) s
            (EScrape (PyString.lstrip_at acc)
               :: delivery_events w (S (length (trace s)))
                    (telegram_channel (config s)) media (make_caption acc text))).
Proof.
  intros Hs Hc Hm. unfold process_account, bind at 1.
  rewrite get_latest_tweet_sync_eq, Hs.
  unfold bind, get_cache. cbn [cache add_trace].
  fold (tweet_id t).
  destruct (decide (cache s !! acc = Some (tweet_id t))) as [He|Hne].
  - rewrite decide_False by (intros H; by apply H). done.
  - rewrite decide_True by done.
    rewrite (deliver_new_eq w acc t (tweet_id t) _ text media Hc Hm).
    unfold marked. cbn [config cache config_json cache_json trace add_trace].
    rewrite length_app. cbn [length].
    replace (length (trace s) + 1)%nat with (S (length (trace s))) by lia.
    by rewrite <- app_assoc.
Qed.

Lemma make_caption_not_empty (acc text : string) :
  String.eqb (make_caption acc text) "" = false.
Proof. unfold make_caption, header. by destruct (negb _). Qed.

(** A delivery with a caption that is not empty always leaves an effect of
    the gateway: a first [bot] call, or the log entry of line 82. *)
Lemma delivery_events_has_effect (w : world) (clock : nat) (ch : option string)
      (media : list media_item) (caption : string) :
  String.eqb caption "" = false ->
  Exists gateway_effect (delivery_events w clock ch media caption).
Proof.
  intros Hc. unfold delivery_events.
  destruct media as [|m0 rest0]; [by apply Exists_cons_hd |].
  unfold delivery_plan, text_fallback.
  destruct (urls_of_type "photo" _) as [|p [|q r]];
    [destruct (urls_of_type "video" _) as [|v vs] | |];
    cbn [photo_sends map app attempted]; rewrite ?Hc;
    apply Exists_cons_hd; cbn; auto.
Qed.

(** The branch of lines 145-156, whatever the post: an exception of the
    normalization leaves it before anything is sent or recorded; otherwise
    the delivery is made and the marker recorded and written. *)
Lemma deliver_new_cases (w : world) (acc : string) (t : tweet) (tid : string)
      (s : state) :
  deliver_new w acc t tid s
  = match content_stripped t with
    | Raise e => (Raise e, s)
    | Ok text =>
      match extract_media_from_tweet t with
      | Raise e => (Raise e, s)
      | Ok media =>
        (Ok tt,
         marked acc tid s
           (delivery_events w (length (trace s)) (telegram_channel (config s)) media
                            (make_caption acc text)))
      end
    end.
Proof.
  destruct (content_stripped t) as [text|e1] eqn:Hc.
  - destruct (extract_media_from_tweet t) as [media|e2] eqn:Hm.
    + by apply deliver_new_eq.
    + unfold deliver_new, bind, lift. by rewrite Hc, Hm.
  - unfold deliver_new, bind, lift. by rewrite Hc.
Qed.

(** The account step on a fetched post: the comparison of line 144 alone
    decides whether the branch of lines 145-156 is entered. *)
Lemma process_account_first (w : world) (acc : string) (s : state) (t : tweet) :
  scrape w (length (trace s)) (PyString.lstrip_at acc) = ScrapeFirst t ->
  process_account w acc s
  = if decide (cache s !! acc = Some (tweet_id t))
    then (Ok tt, add_trace s [EScrape (PyString.lstrip_at acc)])
    else deliver_new w acc t (tweet_id t)
                     (add_trace s [EScrape (PyString.lstrip_at acc)]).
Proof.
  intros Hs. unfold process_account, bind at 1.
  rewrite get_latest_tweet_sync_eq, Hs.
  unfold bind, get_cache. cbn [cache add_trace].
  fold (tweet_id t).
  destruct (decide (cache s !! acc = Some (tweet_id t))) as [He|Hne].
  - rewrite decide_False by (intros H; by apply H). done.
  - by rewrite decide_True by done.
Qed.

Lemma tweet_id_cases (t : tweet) :
  tweet_id t
  = match t_id t with
    | Some (PyStr i) => i
    | Some (PyInt z) => pretty z
    | Some PyNone | None => "None"
    end.
Proof. unfold tweet_id. by destruct (t_id t) as [[]|]. Qed.

Lemma post_typed_normalizes (t : tweet) :
  post_typed t = true ->
  exists text media,
    content_stripped t = Ok text /\ extract_media_from_tweet t = Ok media.
Proof.
  unfold post_typed. rewrite andb_true_iff. intros [Hc Ht].
  unfold content_stripped.
  destruct (t_content t) as [[]|]; try discriminate;
    eexists _, _; (split; [reflexivity | by apply extract_media_typed]).
Qed.

(** C1. Whenever the post fetched for an account has an id different from
    the stored marker and its delivery is reached (its text and media
    normalize), then in every world - whether the [bot] calls succeed or raise
    inside the gateway - the gateway ([send_text] without media, [send_media]
    with) returns normally having left at least one effect, a [bot] call or
    the log entry of the failure; the account step returns normally; the
    marker of the account is then the post's id, [str] of its [id] attribute;
    the marker map on disk is the map in memory; the write is the last
    effect of the step and follows those of the gateway; and the next
    accounts are processed from that state. *)
Theorem marker_advances_after_delivery (w : world) (s : state) (acc : string)
        (t : tweet) (text : string) (media : list media_item) (rest : list string) :
  scrape w (length (trace s)) (PyString.lstrip_at acc) = ScrapeFirst t ->
  cache s !! acc <> Some (tweet_id t) ->
  content_stripped t = Ok text ->
  extract_media_from_tweet t = Ok media ->
  exists evs,
    match media with
    | [] => send_text w (telegram_channel (config s)) (make_caption acc text)
    | _ => send_media w (telegram_channel (config s)) media (make_caption acc text)
    end (add_trace s [EScrape (PyString.lstrip_at acc)])
    = (Ok tt, add_trace s (EScrape (PyString.lstrip_at acc) :: evs))
    /\ Exists gateway_effect evs
    /\ tweet_id t
       = match t_id t with
         | Some (PyStr i) => i
         | Some (PyInt z) => pretty z
         | Some PyNone | None => "None"
         end
    /\ process_account w acc s
       = (Ok tt,
          {| config := config s;
             cache := <[acc := tweet_id t]> (cache s);
             config_json := config_json s;
             cache_json := Some (<[acc := tweet_id t]> (cache s));
             trace := trace s ++ EScrape (PyString.lstrip_at acc) :: evs
                              ++ [EWrite CACHE_FILE] |})
    /\ for_each (acc :: rest) (process_account w) s
       = for_each rest (process_account w)
           {| config := config s;
              cache := <[acc := tweet_id t]> (cache s);
              config_json := config_json s;
              cache_json := Some (<[acc := tweet_id t]> (cache s));
              trace := trace s ++ EScrape (PyString.lstrip_at acc) :: evs
                               ++ [EWrite CACHE_FILE] |}.
Proof.
  intros Hs Hne Hc Hm.
  pose proof (process_account_eq w acc s t text media Hs Hc Hm) as Hp.
  rewrite decide_False in Hp by done.
  eexists. split.
  { rewrite delivery_eq, add_trace_add. cbn [app]. f_equal. }
  split.
  { cbn [add_trace trace]. rewrite length_app. cbn [length].
    replace (length (trace s) + 1)%nat with (S (length (trace s))) by lia.
    apply delivery_events_has_effect, make_caption_not_empty. }
  split; [apply tweet_id_cases |].
  cbn [add_trace trace]. rewrite length_app. cbn [length].
  replace (length (trace s) + 1)%nat with (S (length (trace s))) by lia.
  split; [exact Hp |].
  cbn [for_each]. unfold bind. by rewrite Hp.
Qed.

Lemma marker_advances_after_delivery_witness :
  process_account world_text_down "@bob" (state_watching ["@bob"] (Some "@ch"))
  = (Ok tt,
     {| config := config (state_watching ["@bob"] (Some "@ch"));
        cache := {[ "@bob" := "2002" ]};
        config_json := None;
        cache_json := Some {[ "@bob" := "2002" ]};
        trace := [ EScrape "bob";
                   ESendMessage (Some "@ch") (make_caption "@bob" "second");
                   ELogException "Failed to send text" TelegramError;
                   EWrite CACHE_FILE ] |}).
Proof.
  destruct (marker_advances_after_delivery world_text_down
              (state_watching ["@bob"] (Some "@ch")) "@bob" tweet2 "second" [] [])
    as (evs & Hg & _ & _ & Hp & _).
  - reflexivity.
  - discriminate.
  - reflexivity.
  - reflexivity.
  - rewrite Hp. injection Hg as <-. reflexivity.
Defined.

(** A post with two photos in a world where every [bot] call fails: no call
    is reached, and the marker is recorded all the same. *)
Example delivery_failure_still_marks :
  trace (process_account world_down "@bob" (state_watching ["@bob"] (Some "@ch"))).2
  = [ EScrape "bob";
      ELogException "Failed to send media" (AttributeError "InputMediaPhoto" "caption");
      EWrite CACHE_FILE ]
  /\ cache (process_account world_down "@bob" (state_watching ["@bob"] (Some "@ch"))).2
       !! "@bob" = Some "1001".
Proof. split; reflexivity. Qed.

(** What the account step leaves of the gateway, for a fetched post. *)
Lemma gateway_effect_iff (w : world) (s : state) (acc : string) (t : tweet) :
  scrape w (length (trace s)) (PyString.lstrip_at acc) = ScrapeFirst t ->
  Exists gateway_effect (new_events s (process_account w acc s).2)
  <-> cache s !! acc <> Some (tweet_id t)
      /\ exists text media,
           content_stripped t = Ok text /\ extract_media_from_tweet t = Ok media.
Proof.
  intros Hs. rewrite (process_account_first w acc s t Hs).
  assert (Hnone : ~ Exists gateway_effect
                      (new_events s (add_trace s [EScrape (PyString.lstrip_at acc)]))).
  { rewrite new_events_add. intros H. apply Exists_cons in H as [H|H]; [done |].
    by apply Exists_nil in H. }
  destruct (decide (cache s !! acc = Some (tweet_id t))) as [He|Hne].
  - cbn [snd]. split; [done | by intros [H _]].
  - rewrite deliver_new_cases.
    destruct (content_stripped t) as [text|e1].
    + destruct (extract_media_from_tweet t) as [media|e2].
      * cbn [snd]. split; [intros _; split; [done | by eexists _, _] |].
        intros _. unfold new_events, marked, add_trace. cbn [trace].
        rewrite <- app_assoc, drop_app_length. cbn [app].
        apply Exists_cons_tl, Exists_app. left.
        apply delivery_events_has_effect, make_caption_not_empty.
      * cbn [snd]. split; [done |]. by intros (_ & ? & ? & _ & ?).
    + cbn [snd]. split; [done |]. by intros (_ & ? & ? & ? & _).
Qed.

(** C10. For the post fetched for an account, the comparison of [str] of its
    [id] attribute with the stored marker alone decides whether the branch
    that delivers is entered: it is entered exactly when the two strings
    differ - whatever the marker is, absent included, and whatever the order
    of the two ids.  The gateway leaves an effect exactly when they differ
    and the normalization of the post returns.  For a post of the source's
    interface (a text that is a string, URL fields that are absent, [None]
    or strings) the normalization returns: the step returns normally, the
    gateway leaves an effect exactly when the strings differ, and the marker
    afterwards is the post's id. *)
Theorem delivery_iff_marker_differs (w : world) (s : state) (acc : string) (t : tweet) :
  scrape w (length (trace s)) (PyString.lstrip_at acc) = ScrapeFirst t ->
  tweet_id t
  = match t_id t with
    | Some (PyStr i) => i
    | Some (PyInt z) => pretty z
    | Some PyNone | None => "None"
    end
  /\ process_account w acc s
     = (if decide (cache s !! acc = Some (tweet_id t))
        then (Ok tt, add_trace s [EScrape (PyString.lstrip_at acc)])
        else deliver_new w acc t (tweet_id t)
                         (add_trace s [EScrape (PyString.lstrip_at acc)]))
  /\ (Exists gateway_effect (new_events s (process_account w acc s).2)
      <-> cache s !! acc <> Some (tweet_id t)
          /\ exists text media,
               content_stripped t = Ok text /\ extract_media_from_tweet t = Ok media)
  /\ (post_typed t = true ->
      (process_account w acc s).1 = Ok tt
      /\ (Exists gateway_effect (new_events s (process_account w acc s).2)
          <-> cache s !! acc <> Some (tweet_id t))
      /\ cache (process_account w acc s).2 !! acc = Some (tweet_id t)).
Proof.
  intros Hs. split; [apply tweet_id_cases |].
  split; [by apply process_account_first |].
  split; [by apply gateway_effect_iff |].
  intros Ht. destruct (post_typed_normalizes t Ht) as (text & media & Hc & Hm).
  split; [|split].
  - by rewrite (process_account_eq w acc s t text media Hs Hc Hm).
  - rewrite (gateway_effect_iff w s acc t Hs). split; [by intros [H _] |].
    intros H. split; [done | by exists text, media].
  - rewrite (process_account_eq w acc s t text media Hs Hc Hm). cbn [snd].
    destruct (decide (cache s !! acc = Some (tweet_id t))) as [He|Hne]; [done |].
    apply lookup_insert_eq.
Qed.

Lemma delivery_iff_marker_differs_witness :
  (process_account world1 "@bob" (state_watching ["@bob"] (Some "@ch"))).1 = Ok tt
  /\ (Exists gateway_effect
             (new_events (state_watching ["@bob"] (Some "@ch"))
                (process_account world1 "@bob"
                   (state_watching ["@bob"] (Some "@ch"))).2)
      <-> cache (state_watching ["@bob"] (Some "@ch")) !! "@bob" <> Some "2002")
  /\ cache (process_account world1 "@bob"
              (state_watching ["@bob"] (Some "@ch"))).2 !! "@bob"
     = Some "2002".
Proof.
  apply (delivery_iff_marker_differs world1
           (state_watching ["@bob"] (Some "@ch")) "@bob" tweet2);
    reflexivity.
Defined.

(** A first run: the account has no marker, its latest post is delivered
    and recorded. *)
Example first_run_is_delivered :
  process_account world1 "@bob" (state_watching ["@bob"] (Some "@ch"))
  = (Ok tt,
     {| config := config (state_watching ["@bob"] (Some "@ch"));
        cache := {[ "@bob" := "2002" ]};
        config_json := None;
        cache_json := Some {[ "@bob" := "2002" ]};
        trace := [ EScrape "bob";
                   ESendMessage (Some "@ch") (make_caption "@bob" "second");
                   EWrite CACHE_FILE ] |}).
Proof. reflexivity. Qed.

(** A marker holding a newer id than the fetched post's: the post is
    delivered and the marker goes back to the older id. *)
Example older_id_is_delivered :
  process_account world1 "@bob"
    {| config := config (state_watching ["@bob"] (Some "@ch"));
       cache := {[ "@bob" := "3003" ]};
       config_json := None; cache_json := None; trace := [] |}
  = (Ok tt,
     {| config := config (state_watching ["@bob"] (Some "@ch"));
        cache := <["@bob" := "2002"]> {[ "@bob" := "3003" ]};
        config_json := None;
        cache_json := Some (<["@bob" := "2002"]> {[ "@bob" := "3003" ]});
        trace :=
          [ EScrape "bob";
            ESendMessage (Some "@ch") (make_caption "@bob" "second");
            EWrite CACHE_FILE ] |}).
Proof. reflexivity. Qed.

(** The same post fetched again is not delivered again. *)
Example same_id_is_skipped :
  new_events (state_watching ["@bob"] (Some "@ch"))
    (check_for_new_tweets world1 2 (state_watching ["@bob"] (Some "@ch"))).2
  = [ ELogInfo "Checking 1 accounts"; EScrape "bob";
      ESendMessage (Some "@ch") (make_caption "@bob" "second");
      EWrite CACHE_FILE; ESleep 180;
      ELogInfo "Checking 1 accounts"; EScrape "bob"; ESleep 180 ].
Proof. reflexivity. Qed.

(** A first-run account whose post holds [None] as [content]: the ids
    differ, the branch is entered, and [.strip()] raises before anything is
    sent or recorded. *)
Example untyped_post_is_not_delivered :
  process_account world1 "@alice" (state_watching ["@alice"] (Some "@ch"))
  = (Raise (AttributeError "NoneType" "strip"),
     add_trace (state_watching ["@alice"] (Some "@ch")) [EScrape "alice"]).
Proof. reflexivity. Qed.

(** C9. With the channel unset the poll loop does not skip the delivery: it
    calls [bot.send_message] with [chat_id=None], logs no skip, and records
    the post as delivered.  The guard the claim describes exists, in
    [send_to_channel_text_only], which the poll loop never calls. *)
Theorem send_attempted_while_channel_unset :
  trace (poll_cycle world1 (state_watching ["@bob"] None)).2
  = [ ELogInfo "Checking 1 accounts"; EScrape "bob";
      ESendMessage None (make_caption "@bob" "second");
      EWrite CACHE_FILE; ESleep 180 ]
  /\ cache (poll_cycle world1 (state_watching ["@bob"] None)).2 !! "@bob"
     = Some "2002"
  /\ send_to_channel_text_only world1 (make_caption "@bob" "second")
       (state_watching ["@bob"] None)
     = (Ok tt,
        add_trace (state_watching ["@bob"] None)
          [ELogWarning "Channel not set. Skipping message."]).
Proof. repeat split; reflexivity. Qed.

(** ** Exceptions and the loop *)

Lemma for_each_stops_at_exception {A} (pre rest : list A) (x : A)
      (body : A -> M unit) (s s1 s2 : state) (e : exn) :
  for_each pre body s = (Ok tt, s1) ->
  body x s1 = (Raise e, s2) ->
  for_each (pre ++ x :: rest) body s = (Raise e, s2).
Proof.
  intros Hpre Hx. rewrite for_each_app. unfold bind at 1. rewrite Hpre.
  cbn [for_each]. unfold bind. by rewrite Hx.
Qed.

(** Only an exception of the normalization steps leaves the processing of an
    account: those of the scraper and of the [bot] calls never do. *)
Lemma process_account_raise (w : world) (acc : string) (s s1 : state) (e : exn) :
  process_account w acc s = (Raise e, s1) ->
  exists t,
    scrape w (length (trace s)) (PyString.lstrip_at acc) = ScrapeFirst t
    /\ (content_stripped t = Raise e
        \/ extract_media_from_tweet t = Raise e)
    /\ s1 = add_trace s [EScrape (PyString.lstrip_at acc)].
Proof.
  unfold process_account, bind at 1. rewrite get_latest_tweet_sync_eq.
  destruct (scrape w _ _) as [| |t] eqn:Hs; try discriminate.
  unfold bind at 1, get_cache at 1.
  case_decide; [|discriminate].
  destruct (content_stripped t) as [text|e1] eqn:Hc.
  - destruct (extract_media_from_tweet t) as [media|e2] eqn:Hm.
    + by rewrite (deliver_new_eq w acc t _ _ text media Hc Hm).
    + unfold deliver_new, bind, lift. rewrite Hc, Hm. intros [= <- <-].
      exists t. auto.
  - unfold deliver_new, bind, lift. rewrite Hc. intros [= <- <-].
    exists t. auto.
Qed.

(** With [paused] set, a cycle fetches and delivers nothing and still ends
    with its pause. *)
Lemma paused_cycle (w : world) (s : state) :
  paused (config s) = true ->
  pause_fits (config s) = true ->
  poll_cycle w s
  = (Ok tt, add_trace s [ELogInfo "Crawler paused"; pause_of (config s)]).
Proof.
  intros Hp Hfit. rewrite poll_cycle_eq. unfold cycle_body, bind, get_config.
  rewrite Hp, emit_eq. rewrite then_sleep_fits by done.
  by rewrite add_trace_add.
Qed.

(** The cycle when the pause fits: the exception that leaves the body is
    logged, and the pause follows in both cases. *)
Lemma poll_cycle_fits (w : world) (s : state) :
  pause_fits (config s) = true ->
  poll_cycle w s
  = match cycle_body w s with
    | (Ok _, s1) => (Ok tt, add_trace s1 [pause_of (config s1)])
    | (Raise e, s1) =>
      (Ok tt,
       add_trace s1 [ELogException "Error in check loop" e; pause_of (config s1)])
    end.
Proof.
  intros Hfit. rewrite poll_cycle_eq.
  destruct (quiet_cycle_body w s) as (evs & _ & _ & Hc).
  destruct (cycle_body w s) as [[[]|e] s1]; cbn [snd] in Hc;
    by rewrite then_sleep_fits by (by rewrite Hc).
Qed.

Lemma send_media_cases (w : world) (ch : option string) (media_urls : list media_item)
      (caption : string) (s : state) :
  send_media w ch media_urls caption s
  = (Ok tt,
     add_trace s
       match media_urls, String.eqb caption "" with
       | [], true => []
       | _, _ => delivery_events w (length (trace s)) ch media_urls caption
       end).
Proof.
  destruct media_urls as [|m0 rest0].
  - unfold send_media, try_except.
    destruct (String.eqb caption ""); cbn [negb].
    + by rewrite add_trace_nil.
    + by rewrite send_text_eq.
  - rewrite send_media_eq by done. by destruct (String.eqb caption "").
Qed.

Lemma elem_of_fromkeys (l : list string) (x : string) : x ∈ fromkeys l <-> x ∈ l.
Proof.
  induction l as [|y l IH]; [done |]. cbn [fromkeys].
  rewrite !elem_of_cons, list_elem_of_filter, IH.
  destruct (decide (x = y)); tauto.
Qed.

Lemma NoDup_fromkeys (l : list string) : NoDup (fromkeys l).
Proof.
  induction l as [|y l IH]; cbn [fromkeys]; [constructor |].
  constructor; [|by apply NoDup_filter].
  rewrite list_elem_of_filter. intros [H _]. by apply H.
Qed.

(** C2, as stated, fails: [@alice]'s post has a [content] holding [None], so
    [.strip()] raises while [@alice] is processed; the exception leaves the
    [for] loop, and [@bob], next in the same cycle and with an undelivered
    post, is neither fetched nor delivered in that cycle. *)
Lemma remaining_accounts_skipped_after_exception :
  trace (poll_cycle world1 (state_watching ["@alice"; "@bob"] (Some "@ch"))).2
  = [ ELogInfo "Checking 2 accounts"; EScrape "alice";
      ELogException "Error in check loop" (AttributeError "NoneType" "strip");
      ESleep 180 ]
  /\ ~ In (EScrape "bob")
          (trace (poll_cycle world1
                    (state_watching ["@alice"; "@bob"] (Some "@ch"))).2)
  /\ cache (poll_cycle world1 (state_watching ["@alice"; "@bob"] (Some "@ch"))).2
       !! "@bob" = None
  /\ trace (poll_cycle world1 (state_watching ["@bob"] (Some "@ch"))).2
     = [ ELogInfo "Checking 1 accounts"; EScrape "bob";
         ESendMessage (Some "@ch") (make_caption "@bob" "second");
         EWrite CACHE_FILE; ESleep 180 ].
Proof.
  split; [reflexivity |]. split; [|split; reflexivity].
  simpl. intros [H | [H | [H | [H | []]]]]; discriminate.
Qed.

(** C2, amended.  An exception raised by the scraper is caught and logged
    inside [get_latest_tweet_sync], an exception raised by a [bot] call or by
    the building of a photo group is caught and logged inside [send_text] or
    [send_media]: the three helpers always return, so the processing of the
    account and the cycle go on.  The only exceptions that leave the
    processing of an account are those of the normalization of a fetched
    post; such an exception ends the [for] loop over the accounts, so the
    remaining accounts of that cycle are skipped; it is caught and logged at
    the cycle level, the cycle still ends with its pause, and the loop goes
    on: every number of iterations is reached, each with its pause, without
    an exception leaving the loop - as long as the pause is one
    [asyncio.sleep] accepts. *)
Theorem exceptions_end_cycle_not_loop (w : world) (s : state) :
  pause_fits (config s) = true ->
  (forall acc,
      get_latest_tweet_sync w acc s
      = match scrape w (length (trace s)) (PyString.lstrip_at acc) with
        | ScrapeFirst t =>
          (Ok (Some t), add_trace s [EScrape (PyString.lstrip_at acc)])
        | ScrapeEmpty => (Ok None, add_trace s [EScrape (PyString.lstrip_at acc)])
        | ScrapeRaises =>
          (Ok None,
           add_trace s [EScrape (PyString.lstrip_at acc);
                        ELogException ("Scrape error for " +:+ acc) ScrapeError])
        end)
  /\ (forall ch text,
         send_text w ch text s
         = (Ok tt,
            add_trace s
              (ESendMessage ch text
                 :: if bot_raises w (length (trace s))
                    then [ELogException "Failed to send text" TelegramError]
                    else [])))
  /\ (forall ch media caption,
         send_media w ch media caption s
         = (Ok tt,
            add_trace s
              match media, String.eqb caption "" with
              | [], true => []
              | _, _ => delivery_events w (length (trace s)) ch media caption
              end))
  /\ (forall acc e s1,
         process_account w acc s = (Raise e, s1) ->
         exists t,
           scrape w (length (trace s)) (PyString.lstrip_at acc) = ScrapeFirst t
           /\ (content_stripped t = Raise e \/ extract_media_from_tweet t = Raise e)
           /\ s1 = add_trace s [EScrape (PyString.lstrip_at acc)])
  /\ (forall acc rest,
         for_each (acc :: rest) (process_account w) s
         = match process_account w acc s with
           | (Ok _, s1) => for_each rest (process_account w) s1
           | (Raise e, s1) => (Raise e, s1)
           end)
  /\ poll_cycle w s
     = match cycle_body w s with
       | (Ok _, s1) => (Ok tt, add_trace s1 [pause_of (config s1)])
       | (Raise e, s1) =>
         (Ok tt,
          add_trace s1 [ELogException "Error in check loop" e; pause_of (config s1)])
       end
  /\ (forall n, exists s' evs,
         check_for_new_tweets w n s = (Ok tt, s')
         /\ trace s' = trace s ++ evs
         /\ sleeps evs = n).
Proof.
  intros Hfit.
  split; [intros acc; apply get_latest_tweet_sync_eq |].
  split; [intros ch text; apply send_text_eq |].
  split; [intros ch media caption; apply send_media_cases |].
  split; [intros acc e s1; apply process_account_raise |].
  split; [intros acc rest; reflexivity |].
  split; [by apply poll_cycle_fits |].
  intros n. destruct (check_loop_shape w n s Hfit) as (s' & evs & H1 & H2 & H3 & _).
  by exists s', evs.
Qed.

Lemma exceptions_end_cycle_not_loop_witness :
  poll_cycle world1 (state_watching ["@alice"; "@bob"] (Some "@ch"))
  = (Ok tt,
     add_trace (state_watching ["@alice"; "@bob"] (Some "@ch"))
       [ ELogInfo "Checking 2 accounts"; EScrape "alice";
         ELogException "Error in check loop" (AttributeError "NoneType" "strip");
         ESleep 180 ])
  /\ exists s' evs,
       check_for_new_tweets world1 3 (state_watching ["@alice"; "@bob"] (Some "@ch"))
       = (Ok tt, s')
       /\ trace s' = trace (state_watching ["@alice"; "@bob"] (Some "@ch")) ++ evs
       /\ sleeps evs = 3%nat.
Proof.
  destruct (exceptions_end_cycle_not_loop world1
              (state_watching ["@alice"; "@bob"] (Some "@ch")))
    as (_ & _ & _ & _ & _ & Hp & Hl).
  - reflexivity.
  - split; [rewrite Hp; reflexivity | exact (Hl 3%nat)].
Defined.

(** Past the largest float the pause itself raises, outside the [try]: the
    exception leaves the iteration and ends the task. *)
Example huge_interval_ends_loop :
  check_for_new_tweets world1 2
    {| config := {| twitter_accounts := []; interval_minutes := 2 ^ 1024;
                    telegram_channel := None; paused := true |};
       cache := ∅; config_json := None; cache_json := None; trace := [] |}
  = (Raise OverflowError,
     {| config := {| twitter_accounts := []; interval_minutes := 2 ^ 1024;
                     telegram_channel := None; paused := true |};
        cache := ∅; config_json := None; cache_json := None;
        trace := [ELogInfo "Crawler paused"] |}).
Proof. vm_compute. reflexivity. Qed.

(** ** Caption *)

(** C8, as stated, fails: the caption the code builds starts with a thread
    emoji and says [tweet], not [post]. *)
Lemma caption_is_not_new_post_from :
  make_caption "@nasa" "hi"
  <> "New post from @nasa:" +:+ PyString.nl +:+ PyString.nl +:+ "hi".
Proof. intros H. vm_compute in H. discriminate H. Qed.

Lemma append_assoc (a b c : string) : (a +:+ b) +:+ c = a +:+ (b +:+ c).
Proof.
  induction a as [|x a IH]; [done |].
  change (String x ((a +:+ b) +:+ c) = String x (a +:+ b +:+ c)). by rewrite IH.
Qed.

(** C8, amended.  For every new post whose text and media normalize, the
    delivery is made with the caption [🧵 New tweet from {account}:], a blank
    line and the text when the stripped text is not empty, and with
    [🧵 New tweet from {account}] alone - no colon - when it is empty. *)
Theorem caption_format (w : world) (s : state) (acc : string) (t : tweet)
        (tid text : string) (media : list media_item) :
  content_stripped t = Ok text ->
  extract_media_from_tweet t = Ok media ->
  deliver_new w acc t tid s
  = (Ok tt,
     marked acc tid s
       (delivery_events w (length (trace s)) (telegram_channel (config s)) media
          (if String.eqb text "" then "🧵 New tweet from " +:+ acc
           else "🧵 New tweet from " +:+ acc +:+ ":" +:+ PyString.nl +:+ PyString.nl
                  +:+ text))).
Proof.
  intros Hc Hm. rewrite (deliver_new_eq w acc t tid s text media Hc Hm).
  unfold make_caption, header. destruct (String.eqb text ""); simpl; [done |].
  by rewrite append_assoc.
Qed.

Lemma caption_format_witness :
  deliver_new world_up "@bob" tweet2 "2002" (state_watching ["@bob"] (Some "@ch"))
  = (Ok tt,
     marked "@bob" "2002" (state_watching ["@bob"] (Some "@ch"))
       [ESendMessage (Some "@ch")
          ("🧵 New tweet from @bob:" +:+ PyString.nl +:+ PyString.nl +:+ "second")]).
Proof.
  apply (caption_format world_up (state_watching ["@bob"] (Some "@ch")) "@bob"
           tweet2 "2002" "second" []); reflexivity.
Defined.

Example header_only_caption :
  make_caption "@bob" (PyString.strip "  ") = "🧵 New tweet from @bob".
Proof. reflexivity. Qed.

(** ** Command controller *)



Example setinterval_abc_ex (s : state) :
  cmd_setinterval int_ascii ["abc"] s = (Ok "Invalid number", s).
Proof. reflexivity. Qed.

Example setinterval_zero_ex (s : state) :
  cmd_setinterval int_ascii ["0"] s
  = (Ok "✅ Interval set to 0 minutes",
     {| config := set_interval_minutes 1 (config s); cache := cache s;
        config_json := Some (set_interval_minutes 1 (config s));
        cache_json := cache_json s;
        trace := trace s ++ [EWrite CONFIG_FILE] |}).
Proof. reflexivity. Qed.

Example setinterval_negative_ex (s : state) :
  interval_minutes (config (cmd_setinterval int_ascii ["-7"] s).2) = 1.
Proof. reflexivity. Qed.

Lemma cmd_add_new (a : string) (rest : list string) (s : state) :
  with_at a ∉ twitter_accounts (config s) ->
  cmd_add (a :: rest) s
  = (Ok ("✅ Added " +:+ with_at a),
     {| config := set_twitter_accounts (twitter_accounts (config s) ++ [with_at a])
                    (config s);
        cache := cache s;
        config_json := Some (set_twitter_accounts
                               (twitter_accounts (config s) ++ [with_at a]) (config s));
        cache_json := cache_json s;
        trace := trace s ++ [EWrite CONFIG_FILE] |}).
Proof.
  intros H. unfold cmd_add, bind, get_config. by rewrite decide_False.
Qed.

Lemma cmd_add_known (a : string) (rest : list string) (s : state) :
  with_at a ∈ twitter_accounts (config s) ->
  cmd_add (a :: rest) s = (Ok (with_at a +:+ " already tracked"), s).
Proof.
  intros H. unfold cmd_add, bind, get_config. by rewrite decide_True.
Qed.

(** C7. For a name written without the leading [@], [add(name)] and
    [add(@name)] are the same command: both test and insert [@name].  When
    [@name] is not yet watched the call appends it to the watch-list and
    saves the configuration; a further add of either spelling answers
    [@name already tracked] and changes nothing. *)
Theorem add_normalizes_and_rejects_duplicates (name : string) (rest : list string)
        (s : state) :
  PyString.startswith name "@" = false ->
  "@" +:+ name ∉ twitter_accounts (config s) ->
  exists s1,
    cmd_add (name :: rest) s = (Ok ("✅ Added " +:+ "@" +:+ name), s1)
    /\ cmd_add (("@" +:+ name) :: rest) s = (Ok ("✅ Added " +:+ "@" +:+ name), s1)
    /\ twitter_accounts (config s1) = twitter_accounts (config s) ++ ["@" +:+ name]
    /\ config_json s1 = Some (config s1)
    /\ cmd_add (name :: rest) s1 = (Ok (("@" +:+ name) +:+ " already tracked"), s1)
    /\ cmd_add (("@" +:+ name) :: rest) s1
       = (Ok (("@" +:+ name) +:+ " already tracked"), s1).
Proof.
  intros Hn Hnew.
  assert (with_at name = "@" +:+ name) as E1 by (unfold with_at; by rewrite Hn).
  assert (with_at ("@" +:+ name) = "@" +:+ name) as E2 by reflexivity.
  eexists. split.
  { rewrite cmd_add_new by (by rewrite E1). rewrite E1. reflexivity. }
  split.
  { rewrite cmd_add_new by (by rewrite E2). rewrite E2. reflexivity. }
  split; [reflexivity |]. split; [reflexivity |].
  split.
  - rewrite cmd_add_known; rewrite E1; [done |].
    cbn. apply elem_of_app. right. by apply list_elem_of_singleton.
  - rewrite cmd_add_known; rewrite E2; [done |].
    cbn. apply elem_of_app. right. by apply list_elem_of_singleton.
Qed.

Lemma add_normalizes_and_rejects_duplicates_witness :
  exists s1,
    cmd_add ["foo"] (initial_state None) = (Ok "✅ Added @foo", s1)
    /\ cmd_add ["@foo"] (initial_state None) = (Ok "✅ Added @foo", s1)
    /\ twitter_accounts (config s1) = ["@foo"]
    /\ config_json s1 = Some (config s1)
    /\ cmd_add ["foo"] s1 = (Ok "@foo already tracked", s1)
    /\ cmd_add ["@foo"] s1 = (Ok "@foo already tracked", s1).
Proof.
  apply (add_normalizes_and_rejects_duplicates "foo" [] (initial_state None)).
  - reflexivity.
  - apply not_elem_of_nil.
Defined.

(** * Further properties of the code *)

(** ** Every way an account step ends *)

Lemma process_account_outcome (w : world) (acc : string) (s : state) :
  account_outcome w acc s (process_account w acc s).
Proof.
  destruct (scrape w (length (trace s)) (PyString.lstrip_at acc)) as [| |t] eqn:Hs.
  - unfold process_account, bind. rewrite get_latest_tweet_sync_eq, Hs.
    by apply ao_raises.
  - unfold process_account, bind. rewrite get_latest_tweet_sync_eq, Hs.
    by apply ao_empty.
  - destruct (decide (cache s !! acc = Some (tweet_id t))) as [He|Hne].
    { unfold process_account, bind, get_cache.
      rewrite get_latest_tweet_sync_eq, Hs. cbn [cache add_trace].
      fold (tweet_id t). rewrite decide_False by (intros H; by apply H).
      by apply (ao_same w acc s t). }
    destruct (content_stripped t) as [text|e] eqn:Hc.
    + destruct (extract_media_from_tweet t) as [media|e] eqn:Hm.
      * rewrite (process_account_eq w acc s t text media Hs Hc Hm).
        rewrite decide_False by done. by apply ao_new.
      * unfold process_account, bind, get_cache.
        rewrite get_latest_tweet_sync_eq, Hs. cbn [cache add_trace].
        fold (tweet_id t). rewrite decide_True by done.
        unfold deliver_new, bind, lift. rewrite Hc, Hm.
        apply (ao_stop w acc s t e); auto.
    + unfold process_account, bind, get_cache.
      rewrite get_latest_tweet_sync_eq, Hs. cbn [cache add_trace].
      fold (tweet_id t). rewrite decide_True by done.
      unfold deliver_new, bind, lift. rewrite Hc.
      apply (ao_stop w acc s t e); auto.
Qed.

(** ** What the poll loop keeps *)

Lemma loop_keeps_refl (s : state) : loop_keeps s s.
Proof.
  split; try done. exists []. by rewrite app_nil_r.
Qed.

Lemma loop_keeps_trans (s1 s2 s3 : state) :
  loop_keeps s1 s2 -> loop_keeps s2 s3 -> loop_keeps s1 s3.
Proof.
  intros [Hc1 Hj1 (e1 & Ht1 & Hf1) Hu1 Hk1 Hs1] [Hc2 Hj2 (e2 & Ht2 & Hf2) Hu2 Hk2 Hs2].
  rewrite Hc1 in Hf2, Hu2. split.
  - congruence.
  - congruence.
  - exists (e1 ++ e2). rewrite Ht2, Ht1, app_assoc. split; [done |].
    by apply Forall_app.
  - intros k Hk. by rewrite Hu2, Hu1.
  - auto.
  - auto.
Qed.

Lemma loop_keeps_add_trace (s : state) (evs : list event) :
  Forall (loop_event_ok (config s)) evs -> loop_keeps s (add_trace s evs).
Proof. intros H. split; try done. by exists evs. Qed.

Lemma loop_keeps_marked (s : state) (acc tid : string) (evs : list event) :
  acc ∈ twitter_accounts (config s) ->
  Forall (loop_event_ok (config s)) evs ->
  loop_keeps s (marked acc tid s evs).
Proof.
  intros Hacc H. split; try done.
  - exists (evs ++ [EWrite CACHE_FILE]). split; [done |].
    apply Forall_app. split; [done |]. by repeat constructor.
  - intros k Hk. cbn. apply lookup_insert_ne. intros ->. by apply Hk.
  - intros k Hk. cbn. destruct (decide (acc = k)) as [->|Hne].
    + rewrite lookup_insert_eq. by eexists.
    + by rewrite lookup_insert_ne.
Qed.

Lemma attempted_Forall (P : event -> Prop) (w : world) (clock : nat)
      (calls : list event) :
  Forall P calls -> Forall P (attempted w clock calls).
Proof.
  intros H. revert clock. induction H as [|ev calls Hev _ IH]; intros clock; simpl.
  - constructor.
  - constructor; [done |]. destruct (bot_raises w clock); [constructor | apply IH].
Qed.

Lemma delivery_plan_ok (c : config_t) (media : list media_item) (caption : string) :
  Forall (loop_event_ok c) (delivery_plan (telegram_channel c) media caption).
Proof.
  unfold delivery_plan. repeat apply Forall_app_2.
  - destruct (urls_of_type "photo" media) as [|p [|q r]]; by repeat constructor.
  - apply Forall_fmap, Forall_forall. by intros v _.
  - unfold text_fallback.
    destruct (urls_of_type "photo" media), (urls_of_type "video" media);
      try constructor.
    destruct (String.eqb caption ""); by repeat constructor.
Qed.

Lemma delivery_events_ok (c : config_t) (w : world) (clock : nat)
      (media : list media_item) (caption : string) :
  Forall (loop_event_ok c)
         (delivery_events w clock (telegram_channel c) media caption).
Proof.
  unfold delivery_events. destruct media as [|m0 rest0].
  - constructor; [done |]. destruct (bot_raises w clock); by repeat constructor.
  - assert (Forall (loop_event_ok c)
              (attempted w clock (delivery_plan (telegram_channel c) (m0 :: rest0) caption)
               ++ if any_raises w clock
                       (delivery_plan (telegram_channel c) (m0 :: rest0) caption)
                  then failure_log (m0 :: rest0) else [])) as H.
    { apply Forall_app_2; [apply attempted_Forall, delivery_plan_ok |].
      destruct (any_raises w clock _); [|constructor].
      unfold failure_log.
      generalize (urls_of_type "photo" (m0 :: rest0)) as photos.
      generalize (urls_of_type "video" (m0 :: rest0)) as videos.
      intros [|v vs] [|p ps]; by repeat constructor. }
    destruct (urls_of_type "photo" (m0 :: rest0)) as [|p [|q r]]; try done.
    by repeat constructor.
Qed.

Lemma loop_keeps_account (w : world) (acc : string) (s : state) :
  acc ∈ twitter_accounts (config s) ->
  loop_keeps s (process_account w acc s).2.
Proof.
  intros Hacc.
  assert (loop_event_ok (config s) (EScrape (PyString.lstrip_at acc))) as Hscr
    by (by exists acc).
  destruct (process_account_outcome w acc s); cbn [snd].
  - apply loop_keeps_add_trace. by repeat constructor.
  - apply loop_keeps_add_trace. by repeat constructor.
  - apply loop_keeps_add_trace. by repeat constructor.
  - apply loop_keeps_add_trace. by repeat constructor.
  - apply loop_keeps_marked; [done |].
    constructor; [done | apply delivery_events_ok].
Qed.

Lemma loop_keeps_for_each (w : world) (accs : list string) (s : state) :
  (forall a, a ∈ accs -> a ∈ twitter_accounts (config s)) ->
  loop_keeps s (for_each accs (process_account w) s).2.
Proof.
  revert s. induction accs as [|a accs IH]; intros s Hin; [apply loop_keeps_refl |].
  cbn [for_each]. unfold bind.
  pose proof (loop_keeps_account w a s (Hin a (list_elem_of_here _ _))) as Ha.
  destruct (process_account w a s) as [[[]|e] s1]; cbn [snd] in *; [|done].
  eapply loop_keeps_trans; [exact Ha |]. apply IH.
  intros b Hb. rewrite (lk_config _ _ Ha). apply Hin. by apply list_elem_of_further.
Qed.

Lemma loop_keeps_cycle (w : world) (s : state) : loop_keeps s (poll_cycle w s).2.
Proof.
  rewrite poll_cycle_eq.
  assert (loop_keeps s (cycle_body w s).2) as Hb.
  { unfold cycle_body, bind, get_config.
    destruct (paused (config s)).
    - rewrite emit_eq. apply loop_keeps_add_trace. by repeat constructor.
    - rewrite emit_eq.
      set (s0 := add_trace s _).
      assert (loop_keeps s s0) as H0
        by (apply loop_keeps_add_trace; by repeat constructor).
      eapply loop_keeps_trans; [exact H0 |].
      apply (loop_keeps_for_each w _ s0). intros a Ha.
      exact (proj1 (elem_of_fromkeys _ _) Ha). }
  destruct (cycle_body w s) as [[[]|e] s1]; cbn [snd] in *.
  - eapply loop_keeps_trans; [exact Hb |].
    destruct (then_sleep_state s1 []) as (evs & -> & [-> | ->]);
      apply loop_keeps_add_trace; repeat constructor.
  - eapply loop_keeps_trans; [exact Hb |].
    destruct (then_sleep_state s1 [ELogException "Error in check loop" e])
      as (evs & -> & [-> | ->]);
      apply loop_keeps_add_trace; repeat constructor.
Qed.

Lemma loop_keeps_loop (w : world) (n : nat) (s : state) :
  loop_keeps s (check_for_new_tweets w n s).2.
Proof.
  revert s. induction n as [|n IH]; intros s; [apply loop_keeps_refl |].
  cbn [check_for_new_tweets]. unfold bind.
  pose proof (loop_keeps_cycle w s) as Hc.
  destruct (poll_cycle w s) as [[[]|e] s1]; cbn [snd] in *; [|done].
  eapply loop_keeps_trans; [exact Hc | apply IH].
Qed.

(** X1. Whatever the world and the number of iterations, the poll loop
    changes neither the configuration in memory nor the configuration
    file. *)
Theorem loop_leaves_configuration (w : world) (n : nat) (s : state) :
  config (check_for_new_tweets w n s).2 = config s
  /\ config_json (check_for_new_tweets w n s).2 = config_json s.
Proof.
  destruct (loop_keeps_loop w n s) as [Hc Hj _ _ _ _]. by split.
Qed.

(** X2. Every effect of the poll loop is one the configuration allows: each
    [bot] call is addressed to the configured channel, each scrape is for a
    watched account with its leading [@]s removed, the only file written is
    the marker file, each pause lasts [max(30, 60 * interval_minutes)]
    seconds, and no warning is logged. *)
Theorem loop_effects_allowed (w : world) (n : nat) (s : state) :
  exists evs,
    trace (check_for_new_tweets w n s).2 = trace s ++ evs
    /\ Forall (loop_event_ok (config s)) evs.
Proof. by destruct (loop_keeps_loop w n s) as [_ _ Ht _ _ _]. Qed.

(** X3. The poll loop never forgets a marker: an account with a marker
    before any number of iterations has one after them. *)
Theorem loop_keeps_markers (w : world) (n : nat) (s : state) (k : string) :
  is_Some (cache s !! k) ->
  is_Some (cache (check_for_new_tweets w n s).2 !! k).
Proof. intros H. by apply (lk_kept _ _ (loop_keeps_loop w n s)). Qed.

Lemma loop_keeps_markers_witness :
  is_Some (cache (check_for_new_tweets world_up 2 state_with_old_marker).2 !! "@zed").
Proof.
  apply (loop_keeps_markers world_up 2 state_with_old_marker "@zed").
  by eexists.
Defined.

(** X4. The marker of an account that is not on the watch-list is left as it
    is by the poll loop, whatever the world and the number of iterations. *)
Theorem loop_leaves_unwatched_markers (w : world) (n : nat) (s : state) (k : string) :
  k ∉ twitter_accounts (config s) ->
  cache (check_for_new_tweets w n s).2 !! k = cache s !! k.
Proof. intros H. by apply (lk_unwatched _ _ (loop_keeps_loop w n s)). Qed.

Lemma loop_leaves_unwatched_markers_witness :
  cache (check_for_new_tweets world_up 2 state_with_old_marker).2 !! "@zed"
  = Some "5".
Proof.
  apply (loop_leaves_unwatched_markers world_up 2 state_with_old_marker "@zed").
  intros H. apply list_elem_of_singleton in H. discriminate H.
Defined.

(** ** The command handlers in closed form *)

Lemma with_at_starts (a : string) : PyString.startswith (with_at a) "@" = true.
Proof.
  unfold with_at. destruct (PyString.startswith a "@") eqn:E; [done |].
  reflexivity.
Qed.

Lemma list_remove_found (x : string) (l1 l2 : list string) :
  x ∉ l1 -> list_remove x (l1 ++ x :: l2) = Ok (l1 ++ l2).
Proof.
  induction l1 as [|y l1 IH]; intros Hx; cbn [list_remove app].
  - by rewrite decide_True.
  - apply not_elem_of_cons in Hx as [Hne Hx].
    rewrite decide_False by done. by rewrite IH.
Qed.

Lemma list_remove_missing (x : string) (l : list string) :
  x ∉ l -> list_remove x l = Raise ValueError.
Proof.
  induction l as [|y l IH]; intros Hx; cbn [list_remove]; [done |].
  apply not_elem_of_cons in Hx as [Hne Hx].
  rewrite decide_False by done. by rewrite IH.
Qed.

Lemma elem_of_first_split (x : string) (l : list string) :
  x ∈ l -> exists l1 l2, l = l1 ++ x :: l2 /\ x ∉ l1.
Proof.
  induction l as [|y l IH]; intros Hx; [by apply elem_of_nil in Hx |].
  destruct (decide (y = x)) as [->|Hne].
  - exists [], l. split; [done | apply not_elem_of_nil].
  - apply elem_of_cons in Hx as [->|Hx]; [done |].
    destruct (IH Hx) as (l1 & l2 & -> & Hl1).
    exists (y :: l1), l2. split; [done |].
    apply not_elem_of_cons. split; [congruence | done].
Qed.

Lemma cmd_remove_found (a : string) (rest : list string) (s : state)
      (l1 l2 : list string) :
  twitter_accounts (config s) = l1 ++ with_at a :: l2 ->
  with_at a ∉ l1 ->
  cmd_remove (a :: rest) s
  = (Ok ("✅ Removed " +:+ with_at a),
     saved (set_twitter_accounts (l1 ++ l2) (config s)) s).
Proof.
  intros Hl Hx. unfold cmd_remove, try_except_ValueError, bind, get_config, lift.
  by rewrite Hl, list_remove_found.
Qed.

Lemma cmd_remove_missing (a : string) (rest : list string) (s : state) :
  with_at a ∉ twitter_accounts (config s) ->
  cmd_remove (a :: rest) s = (Ok (with_at a +:+ " not found"), s).
Proof.
  intros Hx. unfold cmd_remove, try_except_ValueError, bind, get_config, lift.
  by rewrite list_remove_missing.
Qed.

Lemma cmd_setinterval_eq (py_int : string -> result Z) (a : string)
      (rest : list string) (s : state) :
  cmd_setinterval py_int (a :: rest) s
  = match py_int a with
    | Ok n =>
      (Ok ("✅ Interval set to " +:+ pretty n +:+ " minutes"),
       saved (set_interval_minutes (Z.max 1 n) (config s)) s)
    | Raise ValueError => (Ok "Invalid number", s)
    | Raise e => (Raise e, s)
    end.
Proof.
  unfold cmd_setinterval, try_except_ValueError, bind, lift.
  destruct (py_int a) as [n|e] eqn:E; [done |]. by destruct e.
Qed.

(** A handler leaves the state as it is, or stores and saves one edit of the
    configuration; it never touches the markers. *)
Lemma handler_cases (py_int : string -> result Z) (c : command) (s : state) :
  (handler py_int c s).2 = s
  \/ exists c', config_edit (config s) c'
                /\ (handler py_int c s).2 = saved c' s.
Proof.
  destruct c as [| |args|args| |args|args| | |]; cbn [handler];
    try (by left).
  - destruct args as [|a rest]; [by left |].
    destruct (decide (with_at a ∈ twitter_accounts (config s))) as [Hin|Hnin].
    + left. by rewrite cmd_add_known.
    + right. eexists. split; [|by rewrite cmd_add_new].
      apply edit_add; [apply with_at_starts | done].
  - destruct args as [|a rest]; [by left |].
    destruct (decide (with_at a ∈ twitter_accounts (config s))) as [Hin|Hnin].
    + right. destruct (elem_of_first_split _ _ Hin) as (l1 & l2 & Hl & Hx).
      eexists. split; [|by rewrite (cmd_remove_found a rest s l1 l2)].
      by apply (edit_remove _ (with_at a) l1 l2).
    + left. by rewrite cmd_remove_missing.
  - left. unfold cmd_list, bind, get_config.
    by destruct (twitter_accounts (config s)).
  - destruct args as [|ch rest]; [by left |].
    right. eexists. split; [apply (edit_channel _ ch) | reflexivity].
  - destruct args as [|a rest]; [by left |].
    rewrite cmd_setinterval_eq. destruct (py_int a) as [n|e];
      [|left; by destruct e].
    right. eexists. split; [apply (edit_interval _ n) | reflexivity].
  - right. eexists. split; [apply (edit_paused _ true) | reflexivity].
  - right. eexists. split; [apply (edit_paused _ false) | reflexivity].
Qed.

Lemma config_edit_wf (c c' : config_t) :
  config_edit c c' -> config_wf c -> config_wf c'.
Proof.
  intros He (Hnd & Hat & Hint). destruct He; unfold config_wf; cbn.
  - split; [|split; [|done]].
    + apply NoDup_app. split; [done |]. split; [|apply NoDup_singleton].
      intros x Hx Hx'. apply list_elem_of_singleton in Hx'. by subst.
    + apply Forall_app. split; [done |]. by repeat constructor.
  - rewrite H in Hnd, Hat. split; [|split; [|done]].
    + apply NoDup_app in Hnd as (H1 & H2 & H3). apply NoDup_cons in H3 as [_ H3].
      apply NoDup_app. split; [done |]. split; [|done].
      intros x Hx Hx'. apply (H2 x Hx). by apply list_elem_of_further.
    + apply Forall_app in Hat as [H1 H2]. apply Forall_cons in H2 as [_ H2].
      by apply Forall_app.
  - done.
  - split; [done |]. split; [done | lia].
  - done.
Qed.

(** ** Sessions of commands and loop iterations *)

Lemma handler_keeps_wf (py_int : string -> result Z) (c : command) (s : state) :
  config_wf (config s) -> config_wf (config (handler py_int c s).2).
Proof.
  intros Hwf. destruct (handler_cases py_int c s) as [->|(c' & He & ->)]; [done |].
  by apply (config_edit_wf (config s)).
Qed.

Lemma handler_keeps_saved (py_int : string -> result Z) (env : option string)
      (c : command) (s : state) :
  config_saved env s -> config_saved env (handler py_int c s).2.
Proof.
  intros Hs. by destruct (handler_cases py_int c s) as [->|(c' & He & ->)].
Qed.

Lemma handler_leaves_cache (py_int : string -> result Z) (c : command) (s : state) :
  cache (handler py_int c s).2 = cache s
  /\ cache_json (handler py_int c s).2 = cache_json s.
Proof. by destruct (handler_cases py_int c s) as [->|(c' & He & ->)]. Qed.

(** X5. From a watch-list without duplicate whose names all start with [@]
    and an interval of at least one minute, every sequence of commands and
    loop iterations leads to a configuration with the same three
    properties. *)
Theorem session_keeps_config_wf (py_int : string -> result Z) (w : world)
        (acts : list action) (s : state) :
  config_wf (config s) ->
  config_wf (config (after_session py_int w acts s)).
Proof.
  revert s. induction acts as [|[c|n] acts IH]; intros s Hwf;
    cbn [after_session]; [done | |].
  - by apply IH, handler_keeps_wf.
  - apply IH. by rewrite (lk_config _ _ (loop_keeps_loop w n s)).
Qed.

Lemma session_keeps_config_wf_witness :
  config_wf (config (after_session int_ascii world_up sample_session
                       (initial_state None))).
Proof.
  apply (session_keeps_config_wf int_ascii world_up sample_session
           (initial_state None)).
  split; [constructor |]. split; [constructor | cbn; lia].
Defined.

(** X6. A process restarted after any sequence of commands and loop
    iterations of a process started on the same files and environment loads
    exactly the configuration and the markers the old process had in
    memory. *)
Theorem restart_recovers_state (py_int : string -> result Z) (env : option string)
        (w : world) (acts : list action) (s0 : state) :
  config (startup env (after_session py_int w acts (startup env s0)))
  = config (after_session py_int w acts (startup env s0))
  /\ cache (startup env (after_session py_int w acts (startup env s0)))
     = cache (after_session py_int w acts (startup env s0)).
Proof.
  assert (config_saved env (startup env s0)) as Hsv by reflexivity.
  assert (load_json (cache_json (startup env s0)) ∅ = cache (startup env s0))
    as Hsy by reflexivity.
  revert Hsv Hsy. generalize (startup env s0) as s. clear s0.
  induction acts as [|[c|n] acts IH]; intros s Hsv Hsy; cbn [after_session].
  - by split.
  - destruct (handler_leaves_cache py_int c s) as [Hc Hj].
    apply IH; [by apply handler_keeps_saved | by rewrite Hc, Hj].
  - destruct (loop_keeps_loop w n s) as [Hc Hj _ _ _ Hs].
    apply IH; [|by apply Hs]. unfold config_saved. by rewrite Hc, Hj.
Qed.

Example sample_session_result :
  config (after_session int_ascii world_up sample_session (initial_state None))
  = {| twitter_accounts := ["@bar"]; interval_minutes := 1;
       telegram_channel := None; paused := true |}
  /\ cache (after_session int_ascii world_up sample_session (initial_state None))
       !! "@bar" = Some "1001".
Proof. split; reflexivity. Qed.

(** ** Removing an account *)

(** X7. [cmd_remove] takes the first occurrence of the name, written with
    its leading [@], out of the watch-list, leaves every other entry -
    later occurrences of the same name included - in place and in order, and
    saves the configuration. *)
Theorem remove_takes_first_occurrence (a : string) (rest : list string) (s : state)
        (l1 l2 : list string) :
  twitter_accounts (config s) = l1 ++ with_at a :: l2 ->
  with_at a ∉ l1 ->
  cmd_remove (a :: rest) s
  = (Ok ("✅ Removed " +:+ with_at a),
     {| config := set_twitter_accounts (l1 ++ l2) (config s);
        cache := cache s;
        config_json := Some (set_twitter_accounts (l1 ++ l2) (config s));
        cache_json := cache_json s;
        trace := trace s ++ [EWrite CONFIG_FILE] |}).
Proof. intros Hl Hx. by rewrite (cmd_remove_found a rest s l1 l2). Qed.

Lemma remove_takes_first_occurrence_witness :
  cmd_remove ["a"] state_with_duplicate
  = (Ok "✅ Removed @a",
     {| config := {| twitter_accounts := ["@b"; "@a"]; interval_minutes := 3;
                     telegram_channel := None; paused := false |};
        cache := ∅;
        config_json := Some {| twitter_accounts := ["@b"; "@a"]; interval_minutes := 3;
                               telegram_channel := None; paused := false |};
        cache_json := None;
        trace := [EWrite CONFIG_FILE] |}).
Proof.
  apply (remove_takes_first_occurrence "a" [] state_with_duplicate [] ["@b"; "@a"]).
  - reflexivity.
  - apply not_elem_of_nil.
Defined.

(** X8. On a watch-list without duplicate, the account is not watched after
    [cmd_remove], whichever spelling is used and whether or not it was
    watched before. *)
Theorem removed_account_is_unwatched (a : string) (rest : list string) (s : state) :
  NoDup (twitter_accounts (config s)) ->
  with_at a ∉ twitter_accounts (config (cmd_remove (a :: rest) s).2).
Proof.
  intros Hnd.
  destruct (decide (with_at a ∈ twitter_accounts (config s))) as [Hin|Hnin].
  - destruct (elem_of_first_split _ _ Hin) as (l1 & l2 & Hl & Hx).
    rewrite (cmd_remove_found a rest s l1 l2 Hl Hx). cbn.
    rewrite Hl in Hnd. apply NoDup_app in Hnd as (_ & _ & H3).
    apply NoDup_cons in H3 as [H3 _].
    rewrite elem_of_app. tauto.
  - by rewrite cmd_remove_missing.
Qed.

Lemma removed_account_is_unwatched_witness :
  with_at "foo" ∉ twitter_accounts
    (config (cmd_remove ["foo"] (state_watching ["@foo"; "@bar"] None)).2).
Proof.
  apply (removed_account_is_unwatched "foo" [] (state_watching ["@foo"; "@bar"] None)).
  cbn. apply NoDup_cons. split.
  - intros H. apply list_elem_of_singleton in H. discriminate H.
  - apply NoDup_singleton.
Defined.

(** X9. [cmd_remove] of a name that is not on the watch-list answers
    [not found] and changes nothing: no write, no change of the list. *)
Theorem remove_rejects_unwatched (a : string) (rest : list string) (s : state) :
  with_at a ∉ twitter_accounts (config s) ->
  cmd_remove (a :: rest) s = (Ok (with_at a +:+ " not found"), s).
Proof. apply cmd_remove_missing. Qed.

Lemma remove_rejects_unwatched_witness :
  cmd_remove ["zed"] (state_watching ["@foo"] None)
  = (Ok "@zed not found", state_watching ["@foo"] None).
Proof.
  apply (remove_rejects_unwatched "zed" [] (state_watching ["@foo"] None)).
  intros H. apply list_elem_of_singleton in H. discriminate H.
Defined.

(** X10. Adding an account that is not watched and then removing it, under
    either spelling, gives back the configuration there was, in memory and
    on disk; the markers are untouched and the file was written twice. *)
Theorem add_then_remove_restores (a b : string) (r1 r2 : list string) (s : state) :
  with_at a ∉ twitter_accounts (config s) ->
  with_at b = with_at a ->
  cmd_remove (b :: r2) (cmd_add (a :: r1) s).2
  = (Ok ("✅ Removed " +:+ with_at a),
     {| config := config s; cache := cache s;
        config_json := Some (config s); cache_json := cache_json s;
        trace := trace s ++ [EWrite CONFIG_FILE; EWrite CONFIG_FILE] |}).
Proof.
  intros Hnew Hb. rewrite (cmd_add_new a r1 s Hnew). cbn [snd].
  rewrite (cmd_remove_found b r2 _ (twitter_accounts (config s)) []);
    [| by rewrite Hb | by rewrite Hb].
  rewrite Hb. unfold saved. cbn [config cache config_json cache_json trace].
  rewrite app_nil_r, <- app_assoc.
  replace (set_twitter_accounts (twitter_accounts (config s))
             (set_twitter_accounts (twitter_accounts (config s) ++ [with_at a])
                (config s)))
    with (config s) by (by destruct (config s)).
  done.
Qed.

Lemma add_then_remove_restores_witness :
  cmd_remove ["@foo"] (cmd_add ["foo"] (state_watching ["@bar"] None)).2
  = (Ok "✅ Removed @foo",
     {| config := config (state_watching ["@bar"] None); cache := ∅;
        config_json := Some (config (state_watching ["@bar"] None));
        cache_json := None;
        trace := [EWrite CONFIG_FILE; EWrite CONFIG_FILE] |}).
Proof.
  apply (add_then_remove_restores "foo" "@foo" [] [] (state_watching ["@bar"] None)).
  - intros H. apply list_elem_of_singleton in H. discriminate H.
  - reflexivity.
Defined.

(** ** Names *)


(** ** Names *)

Lemma lstrip_at_other (c : ascii) (a : string) :
  c <> "@"%char -> PyString.lstrip_at (String c a) = String c a.
Proof.
  intros Hc. destruct c as [[] [] [] [] [] [] [] []]; try reflexivity.
  by destruct Hc.
Qed.

Lemma lstrip_at_no_at (a : string) :
  PyString.startswith (PyString.lstrip_at a) "@" = false.
Proof.
  induction a as [|c a IH]; [done |].
  destruct (decide (c = "@"%char)) as [->|Hne]; [exact IH |].
  rewrite lstrip_at_other by done. cbn [PyString.startswith].
  rewrite andb_true_r. apply Ascii.eqb_neq. congruence.
Qed.

Lemma lstrip_with_at (a : string) :
  PyString.lstrip_at (with_at a) = PyString.lstrip_at a.
Proof. unfold with_at. by destruct (PyString.startswith a "@"). Qed.

(** X11. For an account stored under the name [/add] gives it, whatever the
    spelling typed, the scraper is run on the name without any leading [@],
    and it never raises. *)
Theorem watched_name_is_scraped_bare (w : world) (a : string) (s : state) :
  exists r logs,
    get_latest_tweet_sync w (with_at a) s
    = (Ok r, add_trace s (EScrape (PyString.lstrip_at a) :: logs))
    /\ PyString.startswith (PyString.lstrip_at a) "@" = false
    /\ with_at (with_at a) = with_at a.
Proof.
  rewrite get_latest_tweet_sync_eq, lstrip_with_at.
  assert (with_at (with_at a) = with_at a) as Hi
    by (unfold with_at at 1; by rewrite with_at_starts).
  destruct (scrape w _ _); eexists _, _;
    (split; [reflexivity |]); by split; [apply lstrip_at_no_at |].
Qed.

(** ** The deduplication of the watch-list *)

Lemma filter_all (P : string -> Prop) `{!forall x, Decision (P x)} (l : list string) :
  (forall x, x ∈ l -> P x) -> filter P l = l.
Proof.
  induction l as [|x l IH]; intros Hall; [done |].
  rewrite filter_cons_True by (apply Hall, list_elem_of_here).
  rewrite IH; [done |]. intros y Hy. by apply Hall, list_elem_of_further.
Qed.

Lemma fromkeys_seen_filter (l seen : list string) :
  filter (fun y => y ∉ seen) (fromkeys l) = fromkeys_seen seen l.
Proof.
  revert seen. induction l as [|x l IH]; intros seen; [done |].
  cbn [fromkeys fromkeys_seen]. destruct (decide (x ∈ seen)) as [Hin|Hnin].
  - rewrite filter_cons_False by (intros H; by apply H).
    rewrite list_filter_filter_l; [apply IH |].
    intros y Hy ->. by apply Hy.
  - rewrite filter_cons_True by done. f_equal.
    rewrite list_filter_filter, <- IH.
    apply list_filter_iff. intros y. rewrite not_elem_of_cons. tauto.
Qed.

(** X12. The deduplication of line 136 keeps each name where it first
    occurs: it equals the insertion of the names, in order, into an empty
    dictionary, and the result has no duplicate. *)
Theorem fromkeys_keeps_first_occurrences (l : list string) :
  fromkeys l = fromkeys_seen [] l /\ NoDup (fromkeys l).
Proof.
  split; [|apply NoDup_fromkeys].
  rewrite <- fromkeys_seen_filter. symmetry. apply filter_all.
  intros x _. apply not_elem_of_nil.
Qed.

Lemma fromkeys_NoDup (l : list string) : NoDup l -> fromkeys l = l.
Proof.
  induction 1 as [|x l Hx Hnd IH]; [done |].
  cbn [fromkeys]. rewrite IH. f_equal. apply filter_all.
  intros y Hy ->. by apply Hx.
Qed.

Example fromkeys_ex :
  fromkeys ["@b"; "@a"; "@b"; "@c"; "@a"] = ["@b"; "@a"; "@c"].
Proof. reflexivity. Qed.

(** ** The scrapes of a cycle *)

Lemma delivery_plan_effects (ch : option string) (media : list media_item)
      (caption : string) :
  Forall (delivery_effect ch) (delivery_plan ch media caption).
Proof.
  unfold delivery_plan. repeat apply Forall_app_2.
  - destruct (urls_of_type "photo" media) as [|p [|q r]]; by repeat constructor.
  - apply Forall_fmap, Forall_forall. by intros v _.
  - unfold text_fallback.
    destruct (urls_of_type "photo" media), (urls_of_type "video" media);
      try constructor.
    destruct (String.eqb caption ""); by repeat constructor.
Qed.

Lemma delivery_events_effects (w : world) (clock : nat) (ch : option string)
      (media : list media_item) (caption : string) :
  Forall (delivery_effect ch) (delivery_events w clock ch media caption).
Proof.
  unfold delivery_events. destruct media as [|m0 rest0].
  - constructor; [done |]. destruct (bot_raises w clock); by repeat constructor.
  - assert (Forall (delivery_effect ch)
              (attempted w clock (delivery_plan ch (m0 :: rest0) caption)
               ++ if any_raises w clock (delivery_plan ch (m0 :: rest0) caption)
                  then failure_log (m0 :: rest0) else [])) as H.
    { apply Forall_app_2; [apply attempted_Forall, delivery_plan_effects |].
      destruct (any_raises w clock _); [|constructor].
      unfold failure_log.
      generalize (urls_of_type "photo" (m0 :: rest0)) as photos.
      generalize (urls_of_type "video" (m0 :: rest0)) as videos.
      intros [|v vs] [|p ps]; by repeat constructor. }
    destruct (urls_of_type "photo" (m0 :: rest0)) as [|p [|q r]]; try done.
    by repeat constructor.
Qed.

Lemma scrapes_app (a b : list event) : scrapes (a ++ b) = scrapes a ++ scrapes b.
Proof. apply omap_app. Qed.

Lemma scrapes_delivery (ch : option string) (evs : list event) :
  Forall (delivery_effect ch) evs -> scrapes evs = [].
Proof.
  induction 1 as [|ev evs Hev _ IH]; [done |].
  destruct ev; try done; exact IH.
Qed.

Lemma scrapes_cons_scrape (u : string) (evs : list event) :
  scrapes (EScrape u :: evs) = u :: scrapes evs.
Proof. reflexivity. Qed.

Lemma account_scrapes (w : world) (a : string) (s : state) :
  exists evs,
    trace (process_account w a s).2 = trace s ++ evs
    /\ scrapes evs = [PyString.lstrip_at a].
Proof.
  destruct (process_account_outcome w a s); cbn [snd];
    try (by eexists; split; [reflexivity | reflexivity]).
  eexists. split; [reflexivity |].
  rewrite scrapes_app, scrapes_cons_scrape.
  by rewrite (scrapes_delivery _ _ (delivery_events_effects _ _ _ _ _)).
Qed.

Lemma for_each_scrapes (w : world) (accs : list string) (s : state) :
  exists evs,
    trace (for_each accs (process_account w) s).2 = trace s ++ evs
    /\ match (for_each accs (process_account w) s).1 with
       | Ok _ => scrapes evs = PyString.lstrip_at <$> accs
       | Raise _ => scrapes evs `prefix_of` (PyString.lstrip_at <$> accs)
       end.
Proof.
  revert s. induction accs as [|a accs IH]; intros s.
  - exists []. cbn. by rewrite app_nil_r.
  - cbn [for_each]. unfold bind.
    destruct (account_scrapes w a s) as (e1 & Ht1 & Hs1).
    destruct (process_account w a s) as [[[]|e] s1]; cbn [fst snd] in *.
    + destruct (IH s1) as (e2 & Ht2 & Hs2).
      exists (e1 ++ e2). rewrite Ht2, Ht1, app_assoc. split; [done |].
      rewrite scrapes_app, Hs1, fmap_cons.
      destruct (for_each accs (process_account w) s1).1.
      * by rewrite Hs2.
      * by apply prefix_cons.
    + exists e1. split; [done |]. rewrite Hs1, fmap_cons.
      apply prefix_cons, prefix_nil.
Qed.

(** X13. In a cycle that is not paused the scraper is run on the watched
    names, deduplicated and without their leading [@]s, in watch-list order
    and at most once each: on all of them when no exception reaches the
    cycle level, on those up to the failing account otherwise. *)
Theorem cycle_scrapes_in_order (w : world) (s : state) :
  paused (config s) = false ->
  exists evs,
    trace (poll_cycle w s).2 = trace s ++ evs
    /\ match (cycle_body w s).1 with
       | Ok _ =>
         scrapes evs = PyString.lstrip_at <$> fromkeys (twitter_accounts (config s))
       | Raise _ =>
         scrapes evs `prefix_of`
           (PyString.lstrip_at <$> fromkeys (twitter_accounts (config s)))
       end.
Proof.
  intros Hp. rewrite poll_cycle_eq.
  unfold cycle_body, bind, get_config. rewrite Hp, emit_eq.
  set (s0 := add_trace s _).
  destruct (for_each_scrapes w (fromkeys (twitter_accounts (config s))) s0)
    as (evs & Ht & Hs).
  destruct (for_each _ _ s0) as [[[]|e] s1]; cbn [fst snd] in *.
  - destruct (then_sleep_state s1 []) as (x & -> & Hx).
    eexists. split.
    { cbn [add_trace trace]. rewrite Ht. unfold s0. cbn [add_trace trace].
      rewrite <- !app_assoc. reflexivity. }
    rewrite !scrapes_app, Hs. destruct Hx as [-> | ->]; cbn; by rewrite app_nil_r.
  - destruct (then_sleep_state s1 [ELogException "Error in check loop" e])
      as (x & -> & Hx).
    eexists. split.
    { cbn [add_trace trace]. rewrite Ht. unfold s0. cbn [add_trace trace].
      rewrite <- !app_assoc. reflexivity. }
    rewrite !scrapes_app. destruct Hx as [-> | ->]; cbn; by rewrite app_nil_r.
Qed.

Lemma cycle_scrapes_in_order_witness :
  exists evs,
    trace (poll_cycle world1 (state_watching ["@alice"; "@bob"; "@alice"] None)).2
    = trace (state_watching ["@alice"; "@bob"; "@alice"] None) ++ evs
    /\ match (cycle_body world1
                (state_watching ["@alice"; "@bob"; "@alice"] None)).1 with
       | Ok _ => scrapes evs = ["alice"; "bob"]
       | Raise _ => scrapes evs `prefix_of` ["alice"; "bob"]
       end.
Proof.
  apply (cycle_scrapes_in_order world1
           (state_watching ["@alice"; "@bob"; "@alice"] None)).
  reflexivity.
Defined.

(** ** A post is delivered once *)

Section Stationary.

Variable w : world.
Hypothesis Hstat : stationary w.

Lemma settled_step (a : string) (s : state) :
  settled w (cache s) a ->
  exists r evs,
    process_account w a s = (r, add_trace s evs) /\ Forall calm evs.
Proof.
  intros Hset. unfold settled in Hset.
  destruct (process_account_outcome w a s) as [H|H|t H He|t e H Hne Hn|t text media H Hne Hc Hm];
    try (eexists _, _; split; [reflexivity | by repeat constructor]).
  rewrite Hstat in H. rewrite H in Hset.
  destruct Hset as [He|[[e He]|[e He]]]; congruence.
Qed.

Lemma step_settles (a : string) (s : state) :
  settled w (cache (process_account w a s).2) a.
Proof.
  unfold settled.
  destruct (process_account_outcome w a s) as [H|H|t H He|t e H Hne Hn|t text media H Hne Hc Hm];
    rewrite Hstat in H; rewrite H; cbn [snd]; try done.
  - by left.
  - right. destruct Hn as [Hn|Hn]; [left | right]; by exists e.
  - left. apply lookup_insert_eq.
Qed.

Lemma step_keeps_settled (a b : string) (s : state) :
  settled w (cache s) b -> settled w (cache (process_account w a s).2) b.
Proof.
  intros Hb.
  destruct (process_account_outcome w a s) as [H|H|t H He|t e H Hne Hn|t text media H Hne Hc Hm];
    cbn [snd]; try exact Hb.
  unfold settled in *. cbn [cache marked].
  destruct (scrape w 0 (PyString.lstrip_at b)) as [| |tb] eqn:Hsb; try done.
  destruct (decide (a = b)) as [->|Hab].
  - left. rewrite Hstat, Hsb in H. injection H as ->. apply lookup_insert_eq.
  - by rewrite lookup_insert_ne.
Qed.

Lemma for_each_keeps_settled (accs : list string) (b : string) (s : state) :
  settled w (cache s) b ->
  settled w (cache (for_each accs (process_account w) s).2) b.
Proof.
  revert s. induction accs as [|a accs IH]; intros s Hb; [done |].
  cbn [for_each]. unfold bind.
  pose proof (step_keeps_settled a b s Hb) as Ha.
  destruct (process_account w a s) as [[[]|e] s1]; cbn [snd] in *; [|done].
  by apply IH.
Qed.

Lemma stopped_step_stops_again (a : string) (s s2 : state) (e : exn) :
  (process_account w a s).1 = Raise e ->
  cache s2 = cache s ->
  exists e2, process_account w a s2 = (Raise e2, add_trace s2 [EScrape (PyString.lstrip_at a)]).
Proof.
  intros Hr Hc.
  destruct (process_account_outcome w a s) as [H|H|t H He|t e1 H Hne Hn|t text media H Hne Hc1 Hm];
    cbn [fst] in Hr; try discriminate.
  rewrite Hstat in H.
  destruct (process_account_outcome w a s2) as [H2|H2|t2 H2 He2|t2 e2 H2 Hne2 Hn2|t2 text2 media2 H2 Hne2 Hc2 Hm2];
    rewrite Hstat in H2; rewrite H in H2; try discriminate;
    injection H2 as <-.
  - rewrite Hc in He2. by destruct Hne.
  - by exists e2.
  - destruct Hn; congruence.
Qed.

Lemma second_pass_is_calm (accs : list string) (s s2 : state) :
  cache s2 = cache (for_each accs (process_account w) s).2 ->
  exists r evs,
    for_each accs (process_account w) s2 = (r, add_trace s2 evs)
    /\ Forall calm evs.
Proof.
  revert s s2. induction accs as [|a accs IH]; intros s s2 Hc.
  - exists (Ok tt), []. split; [|constructor]. cbn. by rewrite add_trace_nil.
  - cbn [for_each] in *. unfold bind in *.
    pose proof (step_settles a s) as Hset.
    destruct (process_account w a s) as [[[]|e] s1] eqn:Hp1; cbn [snd] in *.
    + assert (settled w (cache s2) a) as Hset2
        by (rewrite Hc; by apply for_each_keeps_settled).
      destruct (settled_step a s2 Hset2) as (r & e1 & Hp2 & Hf1).
      rewrite Hp2. destruct r as [[]|e2].
      * destruct (IH s1 (add_trace s2 e1) Hc) as (r & e2 & Hp3 & Hf2).
        rewrite Hp3, add_trace_add. exists r, (e1 ++ e2).
        split; [done | by apply Forall_app].
      * by exists (Raise e2), e1.
    + destruct (process_account_raise w a s s1 e Hp1) as (t & _ & _ & ->).
      destruct (stopped_step_stops_again a s s2 e) as (e2 & Hp2);
        [by rewrite Hp1 | exact Hc |].
      rewrite Hp2. eexists _, _. split; [reflexivity | by repeat constructor].
Qed.

Lemma then_sleep_calm (s : state) (evs : list event) :
  Forall calm evs ->
  exists evs', (then_sleep s evs).2 = add_trace s evs' /\ Forall calm evs'.
Proof.
  intros Hf. destruct (then_sleep_state s evs) as (x & -> & Hx).
  eexists. split; [reflexivity |]. apply Forall_app. split; [done |].
  destruct Hx as [-> | ->]; by repeat constructor.
Qed.

Lemma cycle_after_cycle_is_calm (s0 s : state) :
  config s = config s0 ->
  cache s = cache (cycle_body w s0).2 ->
  exists evs,
    (poll_cycle w s).2 = add_trace s evs /\ Forall calm evs.
Proof.
  intros Hcfg Hc. rewrite poll_cycle_eq.
  unfold cycle_body, bind, get_config in *. rewrite Hcfg.
  destruct (paused (config s0)).
  - rewrite emit_eq.
    destruct (then_sleep_calm (add_trace s [ELogInfo "Crawler paused"]) [])
      as (x & -> & Hx); [constructor |].
    rewrite add_trace_add. eexists. split; [reflexivity |].
    apply Forall_cons. by split.
  - rewrite !emit_eq in *.
    destruct (second_pass_is_calm (fromkeys (twitter_accounts (config s0)))
                (add_trace s0 [ELogInfo
                   ("Checking " +:+ pretty (length (fromkeys (twitter_accounts (config s0))))
                      +:+ " accounts")])
                (add_trace s [ELogInfo
                   ("Checking " +:+ pretty (length (fromkeys (twitter_accounts (config s0))))
                      +:+ " accounts")]) Hc)
      as (r & evs & Hp & Hf).
    rewrite Hp. destruct r as [[]|e].
    + destruct (then_sleep_calm
                  (add_trace (add_trace s [ELogInfo
                     ("Checking "
                        +:+ pretty (length (fromkeys (twitter_accounts (config s0))))
                        +:+ " accounts")]) evs) [])
        as (x & -> & Hx); [constructor |].
      rewrite !add_trace_add. eexists. split; [reflexivity |].
      apply Forall_cons. split; [done |]. by apply Forall_app.
    + destruct (then_sleep_calm
                  (add_trace (add_trace s [ELogInfo
                     ("Checking "
                        +:+ pretty (length (fromkeys (twitter_accounts (config s0))))
                        +:+ " accounts")]) evs)
                  [ELogException "Error in check loop" e])
        as (x & -> & Hx); [by repeat constructor |].
      rewrite !add_trace_add. eexists. split; [reflexivity |].
      apply Forall_cons. split; [done |]. by apply Forall_app.
Qed.

Lemma cycles_after_cycle_are_calm (n : nat) (s0 s : state) :
  config s = config s0 ->
  cache s = cache (cycle_body w s0).2 ->
  exists evs,
    (check_for_new_tweets w n s).2 = add_trace s evs /\ Forall calm evs.
Proof.
  revert s. induction n as [|n IH]; intros s Hcfg Hc.
  - exists []. split; [by rewrite add_trace_nil | constructor].
  - cbn [check_for_new_tweets]. unfold bind.
    destruct (cycle_after_cycle_is_calm s0 s Hcfg Hc) as (e1 & Hp & Hf1).
    destruct (poll_cycle w s) as [[[]|e] s']; cbn [snd] in *; subst s'.
    + destruct (IH (add_trace s e1)) as (e2 & Hl & Hf2); [done | done |].
      rewrite Hl, add_trace_add. exists (e1 ++ e2). split; [done |].
      by apply Forall_app.
    + by exists e1.
Qed.

End Stationary.

(** X14. In a world whose scraper keeps answering the same, whatever the
    [bot] calls do, the iterations that follow a cycle make no [bot] call,
    write no file and leave the markers as they are. *)
Theorem later_cycles_deliver_nothing (w : world) (n : nat) (s : state) :
  stationary w ->
  exists evs,
    (check_for_new_tweets w n (poll_cycle w s).2).2
    = add_trace (poll_cycle w s).2 evs
    /\ Forall calm evs.
Proof.
  intros Hstat. apply (cycles_after_cycle_are_calm w Hstat n s).
  - apply (lk_config _ _ (loop_keeps_cycle w s)).
  - rewrite poll_cycle_eq.
    destruct (cycle_body w s) as [[[]|e] s1]; apply then_sleep_cache.
Qed.

Lemma later_cycles_deliver_nothing_witness :
  exists evs,
    (check_for_new_tweets world_down 3
       (poll_cycle world_down (state_watching ["@bob"; "@carol"] (Some "@ch"))).2).2
    = add_trace
        (poll_cycle world_down (state_watching ["@bob"; "@carol"] (Some "@ch"))).2 evs
    /\ Forall calm evs.
Proof.
  apply (later_cycles_deliver_nothing world_down 3
           (state_watching ["@bob"; "@carol"] (Some "@ch"))).
  intros n u. reflexivity.
Defined.

(** ** Pause and interval *)

(** X15. While [paused] is set and the pause is one [asyncio.sleep] accepts,
    the loop is idle: whatever the world and the number of iterations, it
    only logs [Crawler paused] and sleeps - no scrape, no [bot] call, no
    write - and returns normally. *)
Theorem paused_loop_is_idle (w : world) (n : nat) (s : state) :
  paused (config s) = true ->
  pause_fits (config s) = true ->
  check_for_new_tweets w n s = (Ok tt, add_trace s (idle_events (config s) n)).
Proof.
  revert s.
  induction n as [|n IH]; intros s Hp Hfit; cbn [check_for_new_tweets idle_events].
  - by rewrite add_trace_nil.
  - unfold bind. rewrite (paused_cycle w s Hp Hfit).
    rewrite IH by done. by rewrite add_trace_add.
Qed.

Lemma paused_loop_is_idle_witness :
  check_for_new_tweets world_up 2 (cmd_pause (state_watching ["@bob"] (Some "@ch"))).2
  = (Ok tt,
     add_trace (cmd_pause (state_watching ["@bob"] (Some "@ch"))).2
       [ELogInfo "Crawler paused"; ESleep 180; ELogInfo "Crawler paused"; ESleep 180]).
Proof.
  apply (paused_loop_is_idle world_up 2
           (cmd_pause (state_watching ["@bob"] (Some "@ch"))).2);
    reflexivity.
Defined.

(** X16. After [cmd_setinterval] accepted an argument read as [n], the next
    cycle ends with a single pause of exactly [60 * max(1, n)] seconds - the
    floor of 30 seconds of the loop never applies to an interval set by
    command - when [asyncio.sleep] accepts that length; when it does not,
    that is from [2^1024 - 2^970] seconds on, the cycle ends without a pause
    and [OverflowError] leaves it. *)
Theorem cycle_sleeps_set_interval (py_int : string -> result Z) (w : world)
        (a : string) (rest : list string) (n : Z) (s : state) :
  py_int a = Ok n ->
  exists s' evs,
    poll_cycle w (cmd_setinterval py_int (a :: rest) s).2
    = (if 60 * Z.max 1 n <? 2 ^ 1024 - 2 ^ 970 then Ok tt else Raise OverflowError, s')
    /\ trace s' = trace (cmd_setinterval py_int (a :: rest) s).2
                    ++ evs
                    ++ (if 60 * Z.max 1 n <? 2 ^ 1024 - 2 ^ 970
                        then [ESleep (60 * Z.max 1 n)] else [])
    /\ Forall (fun ev => is_sleep ev = false) evs.
Proof.
  intros Hn.
  destruct (poll_cycle_ends w (cmd_setinterval py_int (a :: rest) s).2)
    as (s' & evs & Hp & Ht & Hf & _).
  exists s', evs.
  assert (pause_fits (config (cmd_setinterval py_int (a :: rest) s).2)
          = (60 * Z.max 1 n <? 2 ^ 1024 - 2 ^ 970)) as Hfit.
  { rewrite cmd_setinterval_eq, Hn. unfold pause_fits, pause_seconds, sleep_overflows.
    cbn [snd config interval_minutes set_interval_minutes].
    replace (Z.max 30 (Z.max 1 n * 60)) with (60 * Z.max 1 n) by lia.
    generalize (2 ^ 1024 - 2 ^ 970). intros b.
    destruct (Z.ltb_spec (60 * Z.max 1 n) b), (Z.leb_spec b (60 * Z.max 1 n));
      cbn; done || lia. }
  rewrite Hp, Ht, Hfit. split; [done |]. split; [|done].
  destruct (60 * Z.max 1 n <? 2 ^ 1024 - 2 ^ 970); [|done].
  rewrite cmd_setinterval_eq, Hn. unfold pause_of.
  cbn [snd config interval_minutes set_interval_minutes saved].
  by replace (Z.max 30 (Z.max 1 n * 60)) with (60 * Z.max 1 n) by lia.
Qed.

Lemma cycle_sleeps_set_interval_witness :
  exists s' evs,
    poll_cycle world_up (cmd_setinterval int_ascii ["0"] (state_watching ["@bob"] None)).2
    = (Ok tt, s')
    /\ trace s' = trace (cmd_setinterval int_ascii ["0"]
                           (state_watching ["@bob"] None)).2
                    ++ evs ++ [ESleep 60]
    /\ Forall (fun ev => is_sleep ev = false) evs.
Proof.
  apply (cycle_sleeps_set_interval int_ascii world_up "0" [] 0
           (state_watching ["@bob"] None)).
  reflexivity.
Defined.

(** ** More on the normalizer *)

Lemma extract_one_item (m : medium) (it : media_item) :
  extract_one m = Ok (Some it) ->
  mi_url it <> "" /\ (mi_type it = "photo" \/ mi_type it = "video").
Proof.
  unfold extract_one.
  destruct (pick_url m) as [|u|z] eqn:Hu; cbn [truthy].
  - discriminate.
  - destruct (String.eqb u "") eqn:E; cbn [negb]; [discriminate |].
    intros [= <-]. cbn [mi_url mi_type]. split.
    + intros ->. discriminate E.
    + destruct (has_video_ext u), (tagged_video m); auto.
  - by destruct (negb (z =? 0)).
Qed.

Lemma extract_loop_items (P : media_item -> Prop) (ms : list medium)
      (media_list items : list media_item) :
  (forall m it, extract_one m = Ok (Some it) -> P it) ->
  Forall P media_list ->
  extract_loop ms media_list = Ok items ->
  Forall P items.
Proof.
  intros HP. revert media_list.
  induction ms as [|m ms IH]; intros media_list Hacc; cbn [extract_loop].
  - by intros [= <-].
  - destruct (extract_one m) as [[it|]|e] eqn:E; [| |discriminate].
    + apply IH. apply Forall_app. split; [done |].
      constructor; [by apply (HP m) | constructor].
    + by apply IH.
Qed.

Lemma normalizer_items_well_formed_aux (t : tweet) (items : list media_item) :
  extract_media_from_tweet t = Ok items ->
  Forall (fun it => mi_url it <> "" /\ (mi_type it = "photo" \/ mi_type it = "video"))
         items.
Proof.
  unfold extract_media_from_tweet.
  destruct (t_media t) as [[|m ms]|]; try (intros [= <-]; constructor).
  apply extract_loop_items; [apply extract_one_item | constructor].
Qed.

(** X17. Whatever the post, every item the normalizer returns has a
    non-empty URL and the type [photo] or [video]. *)
Theorem normalizer_items_well_formed (t : tweet) (items : list media_item) :
  extract_media_from_tweet t = Ok items ->
  Forall (fun it => mi_url it <> "" /\ (mi_type it = "photo" \/ mi_type it = "video"))
         items.
Proof. apply normalizer_items_well_formed_aux. Qed.

Lemma normalizer_items_well_formed_witness :
  Forall (fun it => mi_url it <> "" /\ (mi_type it = "photo" \/ mi_type it = "video"))
         [ {| mi_type := "photo"; mi_url := "https://p/a.jpg" |};
           {| mi_type := "video"; mi_url := "https://v/b" |};
           {| mi_type := "photo"; mi_url := "https://p/c_small.jpg" |} ].
Proof.
  apply (normalizer_items_well_formed tweet1). reflexivity.
Defined.

Lemma extract_loop_typed_prefix (ms1 rest : list medium) (media_list : list media_item) :
  forallb medium_typed ms1 = true ->
  extract_loop (ms1 ++ rest) media_list
  = extract_loop rest (media_list ++ omap normalized ms1).
Proof.
  revert media_list. induction ms1 as [|m ms1 IH]; intros media_list; cbn [app].
  - intros _. cbn. by rewrite app_nil_r.
  - cbn [forallb]. rewrite andb_true_iff. intros [Hm Hms]. cbn [extract_loop].
    rewrite (extract_one_typed m Hm). cbn [omap list_omap].
    destruct (normalized m) as [it|]; rewrite IH by done; [|done].
    by rewrite <- app_assoc.
Qed.

(** X18. One media element whose chosen URL is a non-zero number makes the
    normalizer raise [AttributeError] for the whole post: the items of the
    elements before it are lost and the elements after it are not looked
    at. *)
Theorem normalizer_raises_on_number_url (t : tweet) (ms1 ms2 : list medium)
        (m : medium) (z : Z) :
  t_media t = Some (ms1 ++ m :: ms2) ->
  forallb medium_typed ms1 = true ->
  pick_url m = PyInt z ->
  z <> 0 ->
  extract_media_from_tweet t = Raise (AttributeError "int" "lower").
Proof.
  intros Ht Hty Hu Hz. unfold extract_media_from_tweet. rewrite Ht.
  assert (extract_loop (ms1 ++ m :: ms2) []
          = Raise (AttributeError "int" "lower")) as H.
  { rewrite extract_loop_typed_prefix by done. cbn [extract_loop].
    unfold extract_one. rewrite Hu. cbn [truthy py_type_name].
    apply Z.eqb_neq in Hz. by rewrite Hz. }
  by destruct (ms1 ++ m :: ms2).
Qed.

Lemma normalizer_raises_on_number_url_witness :
  extract_media_from_tweet
    {| t_id := None; t_content := None; t_media := Some [photoA; odd_medium; videoB] |}
  = Raise (AttributeError "int" "lower").
Proof.
  apply (normalizer_raises_on_number_url
           {| t_id := None; t_content := None;
              t_media := Some [photoA; odd_medium; videoB] |}
           [photoA] [videoB] odd_medium 42); try reflexivity.
  discriminate.
Defined.

Lemma no_photo_all_videos (items : list media_item) :
  Forall (fun it => mi_url it <> "" /\ (mi_type it = "photo" \/ mi_type it = "video"))
         items ->
  urls_of_type "photo" items = [] ->
  urls_of_type "video" items = map mi_url items.
Proof.
  unfold urls_of_type.
  induction 1 as [|it items [_ [Hp|Hv]] _ IH]; [done | |].
  - rewrite filter_cons_True by done. discriminate.
  - rewrite filter_cons_False by (rewrite Hv; discriminate).
    intros Hno. rewrite filter_cons_True by done.
    cbn [map]. f_equal. by apply IH.
Qed.

(** X19. A new post whose media are all videos is delivered without its
    text: the delivery consists of [send_video] calls, which carry no
    caption, and of log entries; no [bot] call carries the caption. *)
Theorem video_only_post_loses_text (w : world) (acc : string) (t : tweet)
        (tid text : string) (media : list media_item) (s : state) :
  content_stripped t = Ok text ->
  extract_media_from_tweet t = Ok media ->
  media <> [] ->
  urls_of_type "photo" media = [] ->
  exists evs,
    deliver_new w acc t tid s = (Ok tt, marked acc tid s evs)
    /\ Forall video_or_log evs.
Proof.
  intros Hc Hm Hne Hno.
  rewrite (deliver_new_eq w acc t tid s text media Hc Hm).
  eexists. split; [reflexivity |].
  pose proof (no_photo_all_videos media (normalizer_items_well_formed_aux t media Hm) Hno)
    as Hv.
  unfold delivery_events. destruct media as [|m0 rest0]; [done |].
  assert (Forall video_or_log
            (delivery_plan (telegram_channel (config s)) (m0 :: rest0)
                           (make_caption acc text))) as Hplan.
  { unfold delivery_plan, text_fallback. rewrite Hno, Hv. cbn [photo_sends app map].
    rewrite app_nil_r. constructor; [done |].
    apply Forall_fmap, Forall_forall. by intros v _. }
  rewrite Hno. apply Forall_app. split; [by apply attempted_Forall |].
  destruct (any_raises _ _ _); [|constructor].
  unfold failure_log. rewrite Hno, Hv. by repeat constructor.
Qed.

Lemma video_only_post_loses_text_witness :
  exists evs,
    deliver_new world_up "@bob" tweet_video_only "4004"
                (state_watching ["@bob"] (Some "@ch"))
    = (Ok tt, marked "@bob" "4004" (state_watching ["@bob"] (Some "@ch")) evs)
    /\ Forall video_or_log evs.
Proof.
  apply (video_only_post_loses_text world_up "@bob" tweet_video_only "4004"
           "watch this" [ {| mi_type := "video"; mi_url := "https://v/b" |} ]
           (state_watching ["@bob"] (Some "@ch")));
    try reflexivity.
  discriminate.
Defined.

Example video_only_post_ex :
  trace (process_account
           {| scrape := fun _ _ => ScrapeFirst tweet_video_only;
              bot_raises := fun _ => false |}
           "@bob" (state_watching ["@bob"] (Some "@ch"))).2
  = [EScrape "bob"; ESendVideo (Some "@ch") "https://v/b"; EWrite CACHE_FILE].
Proof. reflexivity. Qed.
